(** * discord-summarizer: conversation windowing, idle sweep, tracker, summarizer

    A shallow embedding of [src/discord_summarizer/bot.py] and
    [src/discord_summarizer/llm.py].  The cog's mutable attributes become
    one explicit [State] record threaded through every handler; the
    collaborators the code talks to (the Discord history feed, the clock,
    the chat-completion backend, the file system) are the fields of an
    [Env] record; a Python exception is the [Raise] outcome of a
    handler.  Calls of [logger] have no effect on the state and are left
    out. *)

From Stdlib Require Import ZArith Lia Ascii.
From stdpp Require Import gmap strings list sorting pretty.

Open Scope Z_scope.

(** ** Time

    A [datetime] is a number of microseconds since the epoch (the
    resolution of Python's [datetime]); a [timedelta] is a number of
    microseconds. *)

Definition datetime := Z.
Definition timedelta := Z.

Definition minutes (n : Z) : timedelta := n * 60000000.
Definition hours (n : Z) : timedelta := n * 3600000000.

(** bot.py:13-14 *)
Definition START_DIFF : timedelta := minutes 15.
Definition END_DIFF : timedelta := hours 1.

(** ** Messages (bot.py:17-25)

    [@dataclass(order=True)] compares two messages as the tuples of their
    fields, in declaration order.  The field [id] is called [msg_id] here
    so as not to hide the identity function. *)

Record MessageData := {
  timestamp : datetime;
  msg_id : Z;
  author : Z;
  content : string;
  attachments : list string
}.

Definition lex (c1 c2 : comparison) : comparison :=
  match c1 with Eq => c2 | _ => c1 end.

Fixpoint list_compare {A} (cmp : A → A → comparison) (l1 l2 : list A)
  : comparison :=
  match l1, l2 with
  | [], [] => Eq
  | [], _ :: _ => Lt
  | _ :: _, [] => Gt
  | x :: l1, y :: l2 => lex (cmp x y) (list_compare cmp l1 l2)
  end.

Definition MessageData_compare (a b : MessageData) : comparison :=
  lex (timestamp a ?= timestamp b)
 (lex (msg_id a ?= msg_id b)
 (lex (author a ?= author b)
 (lex (String.compare (content a) (content b))
      (list_compare String.compare (attachments a) (attachments b))))).

(** [a < b], the [__lt__] the dataclass generates *)
Definition MessageData_lt (a b : MessageData) : bool :=
  match MessageData_compare a b with Lt => true | _ => false end.

(** [list.sort()] and [sorted()]: a stable sort that only asks [<].
    [insert_sorted x l] puts [x] in front of the first element that is not
    smaller than [x], so equal elements keep their order. *)
Fixpoint insert_sorted (x : MessageData) (l : list MessageData)
  : list MessageData :=
  match l with
  | [] => [x]
  | y :: l' => if MessageData_lt y x then y :: insert_sorted x l'
               else x :: y :: l'
  end.

Fixpoint sorted (l : list MessageData) : list MessageData :=
  match l with
  | [] => []
  | x :: l' => insert_sorted x (sorted l')
  end.

(** ** The conversation-chunking scan (bot.py:125-148) *)

(** [l[-5:]] *)
Definition last5 {A} (l : list A) : list A := drop (length l - 5)%nat l.

(** The four local variables of the loop. *)
Record scan_state := {
  conversation_chunks : list (list MessageData);
  current_chunk : list MessageData;
  in_conversation : bool;
  validate_stamp : option datetime
}.

Definition scan_init : scan_state :=
  {| conversation_chunks := []; current_chunk := [];
     in_conversation := false; validate_stamp := None |}.

(** bot.py:135, the test under [if not in_conversation] *)
Definition start_test (fifth msg : MessageData) : bool :=
  timestamp fifth <? timestamp msg - START_DIFF.

(** bot.py:142, the test under [else] *)
Definition end_test (fifth msg : MessageData) : bool :=
  timestamp fifth >? timestamp msg - END_DIFF.

(** One iteration of [for msg in messages] (bot.py:130-148).  [fifth] is
    [current_chunk[-5]] after the append; once the length test has passed
    it is the head of [current_chunk[-5:]]. *)
Definition scan_step (s : scan_state) (msg : MessageData) : scan_state :=
  let chunk := current_chunk s ++ [msg] in
  let keep_going :=
    {| conversation_chunks := conversation_chunks s;
       current_chunk := chunk;
       in_conversation := in_conversation s;
       validate_stamp := validate_stamp s |} in
  if (length chunk <? 5)%nat then keep_going
  else
    match last5 chunk with
    | [] => keep_going
    | fifth :: _ =>
      if negb (in_conversation s) then
        if start_test fifth msg then
          {| conversation_chunks := conversation_chunks s;
             current_chunk := last5 chunk;
             in_conversation := true;
             validate_stamp := Some (timestamp fifth) |}
        else keep_going
      else
        if end_test fifth msg then
          {| conversation_chunks := conversation_chunks s ++ [chunk];
             current_chunk := [];
             in_conversation := false;
             validate_stamp := Some (timestamp msg) |}
        else keep_going
    end.

Definition scan_from (s : scan_state) (messages : list MessageData)
  : scan_state :=
  fold_left scan_step messages s.

Definition scan (messages : list MessageData) : scan_state :=
  scan_from scan_init messages.

(** ** Python values used as keys

    A channel or guild id is an [int]; [str(channel.id)] is a [str]; the
    two never compare equal, and both occur as members of
    [tracked_channels] and as keys of [message_collection]. *)

Inductive key := KInt (n : Z) | KStr (s : string).

Global Instance key_eq_dec : EqDecision key.
Proof. solve_decision. Defined.

Global Instance key_countable : Countable key.
Proof.
  refine (inj_countable'
    (λ k, match k with KInt n => inl n | KStr s => inr s end)
    (λ x, match x with inl n => KInt n | inr s => KStr s end) _).
  by intros [].
Defined.

(** [str(n)] for an [int] *)
Definition str (n : Z) : string := pretty n.

(** ** Insertion-ordered dictionaries

    [message_collection] is iterated by the sweep, and a Python [dict]
    iterates in insertion order, so it is an association list with unique
    keys. *)

Section odict.
Context {K V : Type} `{EqDecision K}.

Fixpoint od_get (k : K) (d : list (K * V)) : option V :=
  match d with
  | [] => None
  | (k', v) :: d' => if decide (k = k') then Some v else od_get k d'
  end.

(** [d[k] = v]: in place for a known key, at the end for a new one *)
Fixpoint od_set (k : K) (v : V) (d : list (K * V)) : list (K * V) :=
  match d with
  | [] => [(k, v)]
  | (k', v') :: d' =>
    if decide (k = k') then (k, v) :: d' else (k', v') :: od_set k v d'
  end.

(** [del d[k]]; [None] stands for the [KeyError] of a missing key *)
Fixpoint od_del (k : K) (d : list (K * V)) : option (list (K * V)) :=
  match d with
  | [] => None
  | (k', v) :: d' =>
    if decide (k = k') then Some d'
    else cons (k', v) <$> od_del k d'
  end.

Definition od_keys (d : list (K * V)) : list K := fst <$> d.
End odict.

(** ** Data classes (bot.py:28-41) *)

Record ChannelStatus := {
  checked_at : datetime;
  active : bool
}.

Record BotData := {
  last_validated : gmap string ChannelStatus;
  tracked_channels : option (gset key)
}.

(** ** Summary log lines (llm.py:67): [{"summary": .., "timestamp": ..}] *)

Record LogLine := {
  summary : string;
  log_timestamp : datetime
}.

(** The arguments of one [summarize_messages] call. *)
Record SummarizeCall := {
  call_channel_name : string;
  call_server_name : string;
  call_messages : list MessageData
}.

(** ** Discord objects, as far as the code reads them *)

Record Guild := { guild_id : Z; guild_name : string }.

Record Channel := {
  channel_id : Z;
  channel_name : string;
  channel_guild : Guild
}.

(** A gateway message event: the fields copied into [MessageData], the
    channel id and the guild id ([None] for a direct message). *)
Record Message := {
  message_data : MessageData;
  message_channel : Z;
  message_guild : option Z
}.

(** What the prompt of llm.py:25-50 is built from: the two names and one
    line per message, in sorted order. *)
Record Request := {
  req_channel_name : string;
  req_server_name : string;
  req_lines : list (datetime * Z * string)
}.

(** ** The environment

    - [clock n] is what the [n]-th call of [datetime.now] returns;
    - [history c after] is the list of messages the iteration of
      [channel.history(limit=None, after=after)] yields before it ends or
      raises (bot.py:101-119 keeps them in both cases);
    - [chat_completions r] is the backend's answer: [None] when
      [client.chat.completions.create] raises, otherwise the [content]
      of the message of each choice ([None] for a null content);
    - [append_ok p] tells whether [open(p, "a")] succeeds;
    - [yaml_writable] tells whether [save_yaml] can write its file;
    - [get_channel] is [bot.get_channel]; [bot_user] is the id of
      [bot.user]; [guilds] is [bot.guilds] with each guild's
      [text_channels]. *)

Record Env := {
  clock : nat → datetime;
  history : Z → datetime → list MessageData;
  chat_completions : Request → option (list (option string));
  append_ok : string → bool;
  yaml_writable : bool;
  get_channel : Z → option Channel;
  bot_user : Z;
  guilds : list (Guild * list Channel)
}.

(** ** The state

    [yaml_data] and [message_collection] are the cog's attributes
    (bot.py:57-59); [yaml_file] is the document last written by
    [save_yaml]; [summaries] maps a path under [summaries/] to the lines
    appended to it.  [never_awaited] and [ticks] are bookkeeping:
    [never_awaited] lists the coroutine objects that were created by
    calling an [async def] and then dropped without [await], so that their
    body never ran; [ticks] counts the calls of [datetime.now]. *)

Record State := {
  yaml_data : BotData;
  message_collection : list (key * list (Z * list MessageData));
  yaml_file : BotData;
  summaries : gmap string (list LogLine);
  never_awaited : list SummarizeCall;
  ticks : nat
}.

Definition set_yaml_data (d : BotData) (st : State) : State :=
  {| yaml_data := d; message_collection := message_collection st;
     yaml_file := yaml_file st; summaries := summaries st;
     never_awaited := never_awaited st; ticks := ticks st |}.

Definition set_message_collection
    (mc : list (key * list (Z * list MessageData))) (st : State) : State :=
  {| yaml_data := yaml_data st; message_collection := mc;
     yaml_file := yaml_file st; summaries := summaries st;
     never_awaited := never_awaited st; ticks := ticks st |}.

Definition set_yaml_file (d : BotData) (st : State) : State :=
  {| yaml_data := yaml_data st; message_collection := message_collection st;
     yaml_file := d; summaries := summaries st;
     never_awaited := never_awaited st; ticks := ticks st |}.

Definition set_summaries (s : gmap string (list LogLine)) (st : State)
  : State :=
  {| yaml_data := yaml_data st; message_collection := message_collection st;
     yaml_file := yaml_file st; summaries := s;
     never_awaited := never_awaited st; ticks := ticks st |}.

Definition set_never_awaited (l : list SummarizeCall) (st : State) : State :=
  {| yaml_data := yaml_data st; message_collection := message_collection st;
     yaml_file := yaml_file st; summaries := summaries st;
     never_awaited := l; ticks := ticks st |}.

Definition set_ticks (n : nat) (st : State) : State :=
  {| yaml_data := yaml_data st; message_collection := message_collection st;
     yaml_file := yaml_file st; summaries := summaries st;
     never_awaited := never_awaited st; ticks := n |}.

Definition set_last_validated (lv : gmap string ChannelStatus) (st : State)
  : State :=
  set_yaml_data {| last_validated := lv;
                   tracked_channels := tracked_channels (yaml_data st) |} st.

Definition set_tracked_channels (t : option (gset key)) (st : State)
  : State :=
  set_yaml_data {| last_validated := last_validated (yaml_data st);
                   tracked_channels := t |} st.

(** ** Exceptions and the handler monad *)

Inductive exn := KeyError | IndexError | AttributeError | OSError.

Inductive outcome (A : Type) :=
  | Ok (a : A)
  | Raise (e : exn).
Arguments Ok {A} a.
Arguments Raise {A} e.

(** A handler runs from a state to an outcome and the state it leaves
    behind; after [Raise] that is the state at the moment of the raise. *)
Definition M (A : Type) : Type := State → outcome A * State.

Definition ret {A} (a : A) : M A := λ st, (Ok a, st).
Definition raise {A} (e : exn) : M A := λ st, (Raise e, st).
Definition bind {A B} (m : M A) (f : A → M B) : M B :=
  λ st, match m st with
        | (Ok a, st') => f a st'
        | (Raise e, st') => (Raise e, st')
        end.
Definition get : M State := λ st, (Ok st, st).
Definition modify (f : State → State) : M unit := λ st, (Ok tt, f st).

Declare Scope handler_scope.
Delimit Scope handler_scope with handler.
Notation "x <- m ;; k" := (bind m (λ x, k))
  (at level 100, m at next level, right associativity) : handler_scope.
Notation "m ;;; k" := (bind m (λ _, k))
  (at level 100, right associativity) : handler_scope.
Open Scope handler_scope.

(** [for x in l: body x] *)
Fixpoint for_each {A} (l : list A) (body : A → M unit) : M unit :=
  match l with
  | [] => ret tt
  | x :: l' => body x ;;; for_each l' body
  end.

(** [datetime.now(tz=timezone.utc)] *)
Definition now (E : Env) : M datetime :=
  λ st, (Ok (clock E (ticks st)), set_ticks (S (ticks st)) st).

(** [save_yaml] (bot.py:85-92): a failed write is logged and swallowed. *)
Definition save_yaml (E : Env) : M unit :=
  modify (λ st, if yaml_writable E then set_yaml_file (yaml_data st) st
                else st).

(** ** The summarizer (llm.py:17-69) *)

(** A Python [str] is a sequence of code points; a [string] here is its
    UTF-8 encoding.  [chars s] cuts [s] into the encodings of its code
    points: the first byte of each tells how many bytes belong to it
    (a [str] always has a well-formed encoding, so every character is
    cut out whole). *)
Definition utf8_width (a : ascii) : nat :=
  let n := nat_of_ascii a in
  if (n <? 192)%nat then 1%nat
  else if (n <? 224)%nat then 2%nat
  else if (n <? 240)%nat then 3%nat
  else 4%nat.

Fixpoint chars (s : string) : list string :=
  match s with
  | EmptyString => []
  | String a s1 =>
    match utf8_width a, s1 with
    | 2%nat, String b s2 =>
      String a (String b EmptyString) :: chars s2
    | 3%nat, String b (String c s3) =>
      String a (String b (String c EmptyString)) :: chars s3
    | 4%nat, String b (String c (String d s4)) =>
      String a (String b (String c (String d EmptyString))) :: chars s4
    | _, _ => String a EmptyString :: chars s1
    end
  end.

(** The code point that one element of [chars s] encodes; a byte that
    encodes none (a stray continuation byte) is given the replacement
    character U+FFFD. *)
Definition code_point (c : string) : N :=
  let cont (b : ascii) : N := (N_of_ascii b - 128)%N in
  (match c with
  | String a EmptyString =>
    if (N_of_ascii a <? 128)%N then N_of_ascii a else 65533
  | String a (String b EmptyString) =>
    (N_of_ascii a - 192) * 64 + cont b
  | String a (String b (String c EmptyString)) =>
    (N_of_ascii a - 224) * 4096 + cont b * 64 + cont c
  | String a (String b (String c (String d EmptyString))) =>
    (N_of_ascii a - 240) * 262144 + cont b * 4096 + cont c * 64 + cont d
  | _ => 65533
  end)%N.

(** The characters [str.strip()] and [str.split()] count as white space:
    tab to carriage return, the four separators U+001C to U+001F, the
    blank, and beyond ASCII U+0085, U+00A0, U+1680, U+2000 to U+200A,
    U+2028, U+2029, U+202F, U+205F and U+3000. *)
Definition is_space (c : string) : bool :=
  let n := code_point c in
  ((9 <=? n) && (n <=? 13) || (28 <=? n) && (n <=? 32)
   || (n =? 133) || (n =? 160) || (n =? 5760)
   || (8192 <=? n) && (n <=? 8202)
   || (n =? 8232) || (n =? 8233) || (n =? 8239) || (n =? 8287)
   || (n =? 12288))%N.

Fixpoint drop_spaces (l : list string) : list string :=
  match l with
  | c :: l' => if is_space c then drop_spaces l' else l
  | [] => []
  end.

(** [str.lstrip()], [str.rstrip()] and [str.strip()] on the characters
    of a string *)
Definition lstrip (l : list string) : list string := drop_spaces l.
Definition rstrip (l : list string) : list string :=
  rev (drop_spaces (rev l)).

Definition strip (s : string) : string :=
  String.concat EmptyString (rstrip (lstrip (chars s))).

(** llm.py:68 *)
Definition summary_path (server_name channel_name : string) : string :=
  "summaries/" +:+ server_name +:+ "_" +:+ channel_name +:+ ".jsonl".

(** llm.py:68-69: open the file for appending and write one line *)
Definition append_line (E : Env) (path : string) (line : LogLine) : M unit :=
  if append_ok E path then
    modify (λ st,
      set_summaries
        (<[path := default [] (summaries st !! path) ++ [line]]>
           (summaries st)) st)
  else raise OSError.

Definition build_request (channel_name server_name : string)
    (messages : list MessageData) : Request :=
  {| req_channel_name := channel_name;
     req_server_name := server_name;
     req_lines := (λ m, (timestamp m, author m, content m)) <$> messages |}.

(** The body of the coroutine; it runs when the coroutine is awaited.
    Only the backend call sits inside [try] (llm.py:54-58); reading
    [result.choices[0].message.content] and writing the file do not. *)
Definition summarize_messages (E : Env) (channel_name server_name : string)
    (messages : list MessageData) : M unit :=
  match messages with
  | [] => ret tt
  | _ :: _ =>
    let messages := sorted messages in
    match chat_completions E
            (build_request channel_name server_name messages) with
    | None => ret tt
    | Some choices =>
      match choices with
      | [] => raise IndexError
      | None :: _ => raise AttributeError
      | Some text :: _ =>
        let summary := strip text in
        match last messages with
        | None => raise IndexError
        | Some m =>
          append_line E (summary_path server_name channel_name)
            {| summary := summary; log_timestamp := timestamp m |}
        end
      end
    end
  end.

(** ** The cog (bot.py:44-403) *)

(** [message_collection] is a [defaultdict] of [defaultdict(list)]:
    reading a missing key creates it. *)
Definition mc_inner (g : key) (mc : list (key * list (Z * list MessageData)))
  : list (Z * list MessageData) :=
  default [] (od_get g mc).

(** the value of [message_collection[g][c]] *)
Definition mc_buffer (g : key) (c : Z)
    (mc : list (key * list (Z * list MessageData))) : list MessageData :=
  default [] (od_get c (mc_inner g mc)).

(** [message_collection[g][c] = buf], and the state of the collection
    after [message_collection[g][c].extend(..)] or [.append(..)] has
    produced [buf] *)
Definition mc_store (g : key) (c : Z) (buf : list MessageData)
    (mc : list (key * list (Z * list MessageData)))
  : list (key * list (Z * list MessageData)) :=
  od_set g (od_set c buf (mc_inner g mc)) mc.

(** the test of bot.py:328-331, 346-349 and 379-382 *)
Definition not_tracked (d : BotData) (c : Z) : bool :=
  match tracked_channels d with
  | None => false
  | Some tracked => bool_decide (KInt c ∉ tracked)
  end.

(** bot.py:151-155.  A [datetime] is always true, so [if validate_stamp]
    only asks whether a candidate was recorded. *)
Definition commit_status (E : Env) (c : Z) (r : scan_state) : M unit :=
  match validate_stamp r with
  | Some stamp =>
    modify (λ st,
      set_last_validated
        (<[str c := {| checked_at := stamp; active := in_conversation r |}]>
           (last_validated (yaml_data st))) st) ;;;
    save_yaml E
  | None => ret tt
  end.

(** [time_data] of bot.py:97-99 when [datetime.now] returned [t] *)
Definition time_data (st : State) (channel : Channel) (t : datetime)
  : ChannelStatus :=
  default {| checked_at := t - hours 3; active := false |}
          (last_validated (yaml_data st) !! str (channel_id channel)).

(** bot.py:94-166 *)
Definition _fetch_message_history (E : Env) (guild : Guild)
    (channel : Channel) : M unit :=
  t <- now E ;;
  st <- get ;;
  let time_data := time_data st channel t in
  let messages := history E (channel_id channel) (checked_at time_data) in
  let g := KInt (guild_id guild) in
  let c := channel_id channel in
  modify (λ st,
    set_message_collection
      (mc_store g c (mc_buffer g c (message_collection st) ++ messages)
         (message_collection st)) st) ;;;
  if (5 <=? length messages)%nat then
    let r := scan (sorted messages) in
    commit_status E c r ;;;
    modify (λ st,
      set_message_collection
        (mc_store g c (current_chunk r) (message_collection st)) st) ;;;
    for_each (conversation_chunks r) (λ chunk,
      summarize_messages E (channel_name channel) (guild_name guild) chunk)
  else ret tt.

(** bot.py:168-208; the result is the returned [bool]. *)
Definition track_channel (E : Env) (channel : Channel) (track : bool)
  : M bool :=
  st <- get ;;
  match tracked_channels (yaml_data st) with
  | None => ret false
  | Some tracked =>
    if bool_decide (track = bool_decide (KInt (channel_id channel) ∈ tracked))
    then ret false
    else
      (if track then
         let channel_id_str := str (channel_id channel) in
         modify (set_tracked_channels
                   (Some (tracked ∪ {[KStr channel_id_str]}))) ;;;
         t <- now E ;;
         let fallback_time := t - hours 3 in
         modify (λ st,
           match last_validated (yaml_data st) !! channel_id_str with
           | None =>
             set_last_validated
               (<[channel_id_str :=
                    {| checked_at := fallback_time; active := false |}]>
                  (last_validated (yaml_data st))) st
           | Some status =>
             if checked_at status <? fallback_time then
               set_last_validated
                 (<[channel_id_str :=
                      {| checked_at := fallback_time; active := false |}]>
                    (last_validated (yaml_data st))) st
             else st
           end) ;;;
         _fetch_message_history E (channel_guild channel) channel
       else
         modify (set_tracked_channels
                   (Some (tracked ∖ {[KInt (channel_id channel)]}))) ;;;
         st <- get ;;
         let g := KInt (guild_id (channel_guild channel)) in
         let inner := mc_inner g (message_collection st) in
         modify (set_message_collection
                   (od_set g inner (message_collection st))) ;;;
         match od_del (channel_id channel) inner with
         | None => raise KeyError
         | Some inner' =>
           modify (λ st, set_message_collection
                           (od_set g inner' (message_collection st)) st)
         end) ;;;
      save_yaml E ;;;
      ret true
  end.

(** bot.py:338-370 *)
Definition on_message (E : Env) (message : Message) : M unit :=
  if bool_decide (author (message_data message) = bot_user E) then ret tt
  else
    st <- get ;;
    if not_tracked (yaml_data st) (message_channel message) then ret tt
    else
      let guild_id :=
        match message_guild message with
        | Some g => KInt g
        | None => KStr "DM"
        end in
      let channel_id := message_channel message in
      modify (λ st,
        set_message_collection
          (mc_store guild_id channel_id
             (mc_buffer guild_id channel_id (message_collection st)
                ++ [message_data message])
             (message_collection st)) st).

(** bot.py:326-336, the loops of [on_ready] *)
Definition on_ready (E : Env) : M unit :=
  for_each (guilds E) (λ '(guild, text_channels),
    for_each text_channels (λ channel,
      st <- get ;;
      if not_tracked (yaml_data st) (channel_id channel) then ret tt
      else _fetch_message_history E guild channel)).

(** *** The periodic sweep (bot.py:260-301) *)

(** the lists [active] and [idle] of bot.py:264-270, used only for
    membership tests *)
Definition active_channels (lv : gmap string ChannelStatus) : gset string :=
  dom (filter (λ kv, active kv.2 = true) lv).

Definition idle_channels (lv : gmap string ChannelStatus) : gset string :=
  dom (filter (λ kv, active kv.2 = false) lv).

(** [messages[-5]] under the guard [len(messages) >= 5] *)
Definition fifth_from_end (messages : list MessageData)
  : option MessageData :=
  if (5 <=? length messages)%nat then head (last5 messages) else None.

(** [last_validated[k].field = ..]: the subscript raises [KeyError] for a
    missing key *)
Definition update_status (k : string) (f : ChannelStatus → ChannelStatus)
  : M unit :=
  st <- get ;;
  match last_validated (yaml_data st) !! k with
  | None => raise KeyError
  | Some status =>
    modify (set_last_validated
              (<[k := f status]> (last_validated (yaml_data st))))
  end.

Definition set_active (b : bool) (s : ChannelStatus) : ChannelStatus :=
  {| checked_at := checked_at s; active := b |}.

Definition set_checked_at (t : datetime) (s : ChannelStatus)
  : ChannelStatus :=
  {| checked_at := t; active := active s |}.

(** bot.py:290-294.  The two arguments read [bot.get_channel(cid).name]
    and [.guild.name], which raises [AttributeError] when [get_channel]
    returns [None].  [summarize_messages] is an [async def] and the call
    is not awaited, so the call only builds a coroutine object that is
    dropped: its body does not run. *)
Definition call_without_await (E : Env) (cid : Z)
    (messages : list MessageData) : M unit :=
  match get_channel E cid with
  | None => raise AttributeError
  | Some channel =>
    modify (λ st,
      set_never_awaited
        (never_awaited st ++
           [{| call_channel_name := channel_name channel;
               call_server_name := guild_name (channel_guild channel);
               call_messages := messages |}]) st)
  end.

(** the body of the inner loop, bot.py:275-299 *)
Definition sweep_channel (E : Env) (idle active : gset string)
    (time_to_active time_to_idle : datetime) (gid : key) (cid : Z)
  : M unit :=
  (if bool_decide (str cid ∈ idle) then
     st <- get ;;
     let messages := sorted (mc_buffer gid cid (message_collection st)) in
     match fifth_from_end messages with
     | Some fifth =>
       if timestamp fifth >? time_to_active then
         update_status (str cid) (set_active true)
       else ret tt
     | None => ret tt
     end
   else if bool_decide (str cid ∈ active) then
     st <- get ;;
     let messages := sorted (mc_buffer gid cid (message_collection st)) in
     match fifth_from_end messages with
     | Some fifth =>
       if timestamp fifth <? time_to_idle then
         update_status (str cid) (set_active false) ;;;
         call_without_await E cid messages ;;;
         modify (λ st,
           set_message_collection
             (mc_store gid cid [] (message_collection st)) st)
       else ret tt
     | None => ret tt
     end
   else ret tt) ;;;
  update_status (str cid) (set_checked_at time_to_active).

Definition check_conversations (E : Env) : M unit :=
  st <- get ;;
  let active := active_channels (last_validated (yaml_data st)) in
  let idle := idle_channels (last_validated (yaml_data st)) in
  t1 <- now E ;;
  let time_to_active := t1 - START_DIFF in
  t2 <- now E ;;
  let time_to_idle := t2 - END_DIFF in
  for_each (od_keys (message_collection st)) (λ gid,
    st <- get ;;
    for_each (od_keys (mc_inner gid (message_collection st))) (λ cid,
      sweep_channel E idle active time_to_active time_to_idle gid cid)) ;;;
  save_yaml E.

(** ** A fresh cog (bot.py:47-71)

    [loaded] is what [load_yaml] returned, or the empty [BotData] when it
    raised; outside whitelist mode the tracked set is dropped. *)

Definition empty_data : BotData :=
  {| last_validated := ∅; tracked_channels := None |}.

Definition cog_init (loaded : BotData) (whitelist_mode : bool) : State :=
  let d := {| last_validated := last_validated loaded;
              tracked_channels :=
                if whitelist_mode then tracked_channels loaded else None |} in
  {| yaml_data := d; message_collection := []; yaml_file := loaded;
     summaries := ∅; never_awaited := []; ticks := 0 |}.

(** the batch [_fetch_message_history] receives when started in [st] *)
Definition fetched (E : Env) (channel : Channel) (st : State)
  : list MessageData :=
  history E (channel_id channel)
    (checked_at (time_data st channel (clock E (ticks st)))).

(** the Buffer of a channel *)
Definition buffer_of (guild : Guild) (channel : Channel) (st : State)
  : list MessageData :=
  mc_buffer (KInt (guild_id guild)) (channel_id channel)
    (message_collection st).

(** ** Concrete data for the scenarios *)

Definition msg_at (t : Z) (i : Z) : MessageData :=
  {| timestamp := minutes t; msg_id := i; author := 1;
     content := "hi"; attachments := [] |}.

(** [n] messages, [gap] minutes apart, the first at minute 0, ids from 0 *)
Definition spaced (n : nat) (gap : Z) : list MessageData :=
  (λ i, msg_at (Z.of_nat i * gap) (Z.of_nat i)) <$> seq 0 n.

(** one message at each of the minutes [ts], ids from 0 *)
Definition at_minutes (ts : list Z) : list MessageData :=
  zip_with msg_at ts (Z.of_nat <$> seq 0 (length ts)).

Definition a_guild : Guild := {| guild_id := 10; guild_name := "srv" |}.

Definition chan7 : Channel :=
  {| channel_id := 7; channel_name := "general"; channel_guild := a_guild |}.

Definition chan8 : Channel :=
  {| channel_id := 8; channel_name := "random"; channel_guild := a_guild |}.

(** An environment in which nothing fails: the clock is [clk], channel 7
    has the messages [h] (and the feed returns those after the timestamp
    asked for), the backend answers with one choice, every file can be
    written. *)
Definition env_with (clk : nat → datetime) (h : list MessageData) : Env :=
  {| clock := clk;
     history := λ c after,
       if decide (c = 7) then filter (λ m, after < timestamp m) h else [];
     chat_completions := λ _, Some [Some " a summary "];
     append_ok := λ _, true;
     yaml_writable := true;
     get_channel := λ c, if decide (c = 7) then Some chan7
                         else if decide (c = 8) then Some chan8 else None;
     bot_user := 99;
     guilds := [(a_guild, [chan7; chan8])] |}.

(** the same with the clock standing at minute [t] *)
Definition env_at (t : Z) (h : list MessageData) : Env :=
  env_with (λ _, minutes t) h.

(** a live message on a channel of [a_guild] *)
Definition live (c : Z) (m : MessageData) : Message :=
  {| message_data := m; message_channel := c; message_guild := Some 10 |}.

(** ** Auxiliary notions for the statements *)

(** [st'] differs from [st] at most in the summary files *)
Definition same_cog (st st' : State) : Prop :=
  yaml_data st' = yaml_data st ∧
  message_collection st' = message_collection st ∧
  yaml_file st' = yaml_file st ∧
  never_awaited st' = never_awaited st ∧
  ticks st' = ticks st.

(** the status [commit_status] stores for a finished scan *)
Definition committed (r : scan_state) (c : Z)
    (lv : gmap string ChannelStatus) : gmap string ChannelStatus :=
  match validate_stamp r with
  | Some stamp =>
    <[str c := {| checked_at := stamp; active := in_conversation r |}]> lv
  | None => lv
  end.

(** the state of the cog when [_fetch_message_history], started in [st],
    reaches the summarizing loop of bot.py:160 (or its end, for a batch of
    fewer than five messages) *)
Definition windowed (E : Env) (guild : Guild) (channel : Channel)
    (st : State) : State :=
  let messages := fetched E channel st in
  let g := KInt (guild_id guild) in
  let c := channel_id channel in
  let st1 :=
    set_message_collection
      (mc_store g c (mc_buffer g c (message_collection st) ++ messages)
         (message_collection st))
      (set_ticks (S (ticks st)) st) in
  if (5 <=? length messages)%nat then
    let r := scan (sorted messages) in
    let st2 :=
      match validate_stamp r with
      | Some _ =>
        let st' := set_last_validated
                     (committed r c (last_validated (yaml_data st1))) st1 in
        if yaml_writable E then set_yaml_file (yaml_data st') st' else st'
      | None => st1
      end in
    set_message_collection
      (mc_store g c (current_chunk r) (message_collection st2)) st2
  else st1.

(** running one handler after another, dropping the first one's result *)
Definition then_run {A B} (m : M A) (k : M B) : M B := bind m (λ _, k).

(** the state in which [track_channel channel True], started in [st] with
    the tracked set [tracked], calls [_fetch_message_history]
    (bot.py:200) *)
Definition enabled (E : Env) (channel : Channel) (tracked : gset key)
    (st : State) : State :=
  let channel_id_str := str (channel_id channel) in
  let fallback_time := clock E (ticks st) - hours 3 in
  let st1 :=
    set_ticks (S (ticks st))
      (set_tracked_channels (Some (tracked ∪ {[KStr channel_id_str]})) st) in
  let reset :=
    set_last_validated
      (<[channel_id_str := {| checked_at := fallback_time; active := false |}]>
         (last_validated (yaml_data st1))) st1 in
  match last_validated (yaml_data st1) !! channel_id_str with
  | None => reset
  | Some status =>
    if checked_at status <? fallback_time then reset else st1
  end.

(** the state [save_yaml] leaves *)
Definition saved (E : Env) (st : State) : State :=
  if yaml_writable E then set_yaml_file (yaml_data st) st else st.


(** [st'] has the keys of [st] in its message collection, at both levels *)
Definition keys_kept (st st' : State) : Prop :=
  od_keys (message_collection st') = od_keys (message_collection st) ∧
  ∀ g, od_keys (mc_inner g (message_collection st')) =
       od_keys (mc_inner g (message_collection st)).

(** the checkpoint stored under [k] has [checked_at] = [t] *)
Definition checked_at_is (t : datetime) (st : State) (k : string) : Prop :=
  ∃ s, last_validated (yaml_data st) !! k = Some s ∧ checked_at s = t.


(** ** The remaining handlers of the cog *)

(** [try: body / except Exception: handler] *)
Definition try_except {A} (body : M A) (handler : exn → M A) : M A :=
  λ st, match body st with
        | (Ok a, st') => (Ok a, st')
        | (Raise e, st') => handler e st'
        end.

(** [str.split()] without argument: the maximal runs of characters that
    are not white space ([tok] is the run being read, if any) *)
Fixpoint split_go (tok : option string) (l : list string) : list string :=
  match l with
  | [] =>
    match tok with Some t => [t] | None => [] end
  | c :: l' =>
    if is_space c then
      match tok with
      | Some t => t :: split_go None l'
      | None => split_go None l'
      end
    else split_go (Some (default EmptyString tok +:+ c)) l'
  end.

Definition str_split (s : string) : list string := split_go None (chars s).

(** [str.lower()] on the letters of ASCII.  The command compares the
    result with words of ASCII letters and digits only, and no character
    outside ASCII has one of the letters of these words as its lower
    case (the only ones with an ASCII lower case are U+0130, which gives
    an [i] and a combining dot, and the Kelvin sign U+212A, which gives
    [k]), so the comparisons of bot.py:231 and bot.py:242 come out as in
    Python. *)
Definition lower_ascii (a : ascii) : ascii :=
  let n := nat_of_ascii a in
  if ((65 <=? n) && (n <=? 90))%nat then ascii_of_nat (n + 32) else a.

Fixpoint lower (s : string) : string :=
  match s with
  | EmptyString => EmptyString
  | String a s' => String (lower_ascii a) (lower s')
  end.

(** The [track] command (bot.py:210-258), run on the channel of the
    invoking message with the text [content] of that message.  The result
    is the text handed to [ctx.send]. *)
Definition track (E : Env) (command_prefix : string) (channel : Channel)
    (content : string) : M string :=
  st <- get ;;
  match tracked_channels (yaml_data st) with
  | None =>
    ret "All channels are being tracked. Contact the bot owner to enable whitelist mode."
  | Some tracked =>
    let args := str_split content in
    msg <-
      (if bool_decide (length args = 1%nat) then
         if bool_decide (KInt (channel_id channel) ∈ tracked)
         then ret "✅ This channel is currently being tracked."
         else ret "❌ This channel is not being tracked."
       else if bool_decide (length args = 2%nat) then
         let action := lower (default EmptyString (args !! 1%nat)) in
         if bool_decide (action ∈ ["on"; "true"; "1"]) then
           try_except
             (changed <- track_channel E channel true ;;
              ret (if changed : bool
                   then "✅ This channel is now being tracked."
                   else "This channel is already being tracked."))
             (λ _, ret "⚠️ An error occurred while trying to track this channel.")
         else if bool_decide (action ∈ ["off"; "false"; "0"]) then
           try_except
             (changed <- track_channel E channel false ;;
              ret (if changed : bool
                   then "❌ This channel is no longer being tracked."
                   else "This channel is already not being tracked."))
             (λ _, ret "⚠️ An error occurred while trying to untrack this channel.")
         else ret EmptyString
       else ret EmptyString) ;;
    if bool_decide (msg = EmptyString) then
      ret ("⚠️ Invalid argument. Use `" +:+ command_prefix +:+ "track on` or `"
           +:+ command_prefix +:+ "track off`")
    else ret msg
  end.

(** bot.py:372-387; [text_channels] is [guild.text_channels] *)
Definition on_guild_join (E : Env) (guild : Guild)
    (text_channels : list Channel) : M unit :=
  for_each text_channels (λ channel,
    st <- get ;;
    if not_tracked (yaml_data st) (channel_id channel) then ret tt
    else _fetch_message_history E guild channel).

(** [tracked_channels.remove(k)]: [KeyError] for a missing member,
    [AttributeError] when the attribute is [None] *)
Definition tracked_remove (k : key) : M unit :=
  st <- get ;;
  match tracked_channels (yaml_data st) with
  | None => raise AttributeError
  | Some tracked =>
    if bool_decide (k ∈ tracked)
    then modify (set_tracked_channels (Some (tracked ∖ {[k]})))
    else raise KeyError
  end.

(** bot.py:389-403 *)
Definition on_guild_remove (E : Env) (guild : Guild) : M unit :=
  st <- get ;;
  let g := KInt (guild_id guild) in
  match od_get g (message_collection st) with
  | None => ret tt
  | Some inner =>
    (match tracked_channels (yaml_data st) with
     | Some _ =>
       for_each (od_keys inner) (λ channel_id,
         tracked_remove (KStr (str channel_id))) ;;;
       save_yaml E
     | None => ret tt
     end) ;;;
    st <- get ;;
    match od_del g (message_collection st) with
    | None => raise KeyError
    | Some mc => modify (set_message_collection mc)
    end
  end.

(** ** Notions for the statements about the order of messages *)

(** [cmp] is the three-way comparison of a total order *)
Definition order_like {A} (cmp : A → A → comparison) : Prop :=
  (∀ a b, cmp b a = CompOpp (cmp a b)) ∧
  (∀ a b, cmp a b = Eq → a = b) ∧
  (∀ a b c, cmp a b = Lt → cmp b c = Lt → cmp a c = Lt).

(** [a <= b] for messages: not [b < a] *)
Definition MessageData_le (a b : MessageData) : Prop :=
  MessageData_lt b a = false.

(** a message seen as the tuple of its fields *)
Definition astuple (m : MessageData)
  : Z * (Z * (Z * (string * list string))) :=
  (timestamp m, (msg_id m, (author m, (content m, attachments m)))).

(** the string made of the bytes [l] *)
Definition bytes (l : list nat) : string :=
  String.string_of_list_ascii (ascii_of_nat <$> l).

(** the UTF-8 encodings of U+00A0 (no-break space), U+2003 (em space),
    U+3000 (ideographic space), which are white space, and of U+200B
    (zero width space) and U+00E0 (a with grave), which are not *)
Definition no_break_space : string := bytes [194; 160]%nat.
Definition em_space : string := bytes [226; 128; 131]%nat.
Definition ideographic_space : string := bytes [227; 128; 128]%nat.
Definition zero_width_space : string := bytes [226; 128; 139]%nat.
Definition a_grave : string := bytes [195; 160]%nat.

(** [env_at t h] with the backend giving [answer] to every request *)
Definition env_answering (t : Z) (h : list MessageData)
    (answer : option (list (option string))) : Env :=
  {| clock := clock (env_at t h);
     history := history (env_at t h);
     chat_completions := λ _, answer;
     append_ok := append_ok (env_at t h);
     yaml_writable := yaml_writable (env_at t h);
     get_channel := get_channel (env_at t h);
     bot_user := bot_user (env_at t h);
     guilds := guilds (env_at t h) |}.

(** ** Notions for the invariants of the handlers *)

(** [m] keeps [P], whether it returns or raises *)
Definition preserves {A} (P : State → Prop) (m : M A) : Prop :=
  ∀ st o st', P st → m st = (o, st') → P st'.

(** what a sweep started in [st0] leaves alone: the summary files, the
    tracked set and the set of channels that have a checkpoint; and a
    Buffer is either as in [st0] or empty *)
Definition sweep_kept (st0 st : State) : Prop :=
  summaries st = summaries st0 ∧
  tracked_channels (yaml_data st) = tracked_channels (yaml_data st0) ∧
  dom (last_validated (yaml_data st)) = dom (last_validated (yaml_data st0)) ∧
  ∀ g c, mc_buffer g c (message_collection st) =
           mc_buffer g c (message_collection st0) ∨
         mc_buffer g c (message_collection st) = [].

(** [st] runs in the same mode as [st0]: open (no tracked set) or
    whitelist *)
Definition same_mode (st0 st : State) : Prop :=
  tracked_channels (yaml_data st) = None ↔
  tracked_channels (yaml_data st0) = None.
(** * Properties *)

(** ** Sorting *)

Lemma insert_sorted_Permutation x l : insert_sorted x l ≡ₚ x :: l.
Proof.
  induction l as [|y l IH]; simpl; [done|].
  destruct (MessageData_lt y x); [|done].
  rewrite IH. apply perm_swap.
Qed.

Lemma sorted_Permutation l : sorted l ≡ₚ l.
Proof.
  induction l as [|x l IH]; simpl; [done|].
  by rewrite insert_sorted_Permutation, IH.
Qed.

Lemma sorted_length l : length (sorted l) = length l.
Proof. by rewrite sorted_Permutation. Qed.

Lemma elem_of_sorted m l : m ∈ sorted l ↔ m ∈ l.
Proof. by rewrite sorted_Permutation. Qed.

(** [sorted] orders by timestamp first. *)
Lemma MessageData_lt_timestamp a b :
  MessageData_lt a b = true → timestamp a ≤ timestamp b.
Proof.
  unfold MessageData_lt, MessageData_compare.
  destruct (Z.compare_spec (timestamp a) (timestamp b)); simpl; [lia..|done].
Qed.

Lemma MessageData_not_lt_timestamp a b :
  MessageData_lt a b = false → timestamp b ≤ timestamp a.
Proof.
  unfold MessageData_lt, MessageData_compare.
  destruct (Z.compare_spec (timestamp a) (timestamp b)); simpl; [lia|done|lia].
Qed.

Lemma insert_sorted_timestamps x l :
  StronglySorted (λ a b, timestamp a ≤ timestamp b) l →
  StronglySorted (λ a b, timestamp a ≤ timestamp b) (insert_sorted x l).
Proof.
  induction 1 as [|y l Hl IH Hy]; simpl.
  { repeat constructor. }
  destruct (MessageData_lt y x) eqn:Hlt.
  - constructor; [done|].
    apply Forall_forall. intros z Hz.
    rewrite insert_sorted_Permutation in Hz.
    apply elem_of_cons in Hz as [->|Hz].
    + by apply MessageData_lt_timestamp.
    + by eapply Forall_forall in Hy.
  - apply MessageData_not_lt_timestamp in Hlt.
    constructor; [by constructor|].
    constructor; [done|].
    eapply Forall_impl; [exact Hy|]. simpl. intros z ?. lia.
Qed.

Lemma sorted_timestamps l :
  StronglySorted (λ a b, timestamp a ≤ timestamp b) (sorted l).
Proof.
  induction l as [|x l IH]; simpl; [constructor|].
  by apply insert_sorted_timestamps.
Qed.

(** ** The scan *)

Lemma scan_snoc l m : scan (l ++ [m]) = scan_step (scan l) m.
Proof. unfold scan, scan_from. by rewrite fold_left_app. Qed.

Lemma last5_length {A} (l : list A) :
  (5 ≤ length l)%nat → length (last5 l) = 5%nat.
Proof. intros H. unfold last5. rewrite length_drop. lia. Qed.

Lemma last5_subseteq {A} (l : list A) x : x ∈ last5 l → x ∈ l.
Proof. unfold last5. apply subseteq_drop. Qed.

(** The cases of one iteration. *)
Lemma scan_step_cases s m :
  let chunk := current_chunk s ++ [m] in
  (scan_step s m =
     {| conversation_chunks := conversation_chunks s; current_chunk := chunk;
        in_conversation := in_conversation s;
        validate_stamp := validate_stamp s |}) ∨
  (∃ fifth rest, (5 ≤ length chunk)%nat ∧ last5 chunk = fifth :: rest ∧
     in_conversation s = false ∧ start_test fifth m = true ∧
     scan_step s m =
       {| conversation_chunks := conversation_chunks s;
          current_chunk := last5 chunk; in_conversation := true;
          validate_stamp := Some (timestamp fifth) |}) ∨
  (∃ fifth rest, (5 ≤ length chunk)%nat ∧ last5 chunk = fifth :: rest ∧
     in_conversation s = true ∧ end_test fifth m = true ∧
     scan_step s m =
       {| conversation_chunks := conversation_chunks s ++ [chunk];
          current_chunk := []; in_conversation := false;
          validate_stamp := Some (timestamp m) |}).
Proof.
  intros chunk. unfold scan_step. fold chunk.
  destruct (Nat.ltb_spec (length chunk) 5) as [Hlt|Hge]; [by left|].
  destruct (last5 chunk) as [|fifth rest] eqn:Hl5; [by left|].
  destruct (in_conversation s) eqn:Hin; simpl.
  - destruct (end_test fifth m) eqn:Ht; [|by left].
    right; right. by exists fifth, rest.
  - destruct (start_test fifth m) eqn:Ht; [|by left].
    right; left. by exists fifth, rest.
Qed.

(** While no candidate timestamp has been recorded, nothing has been
    emitted or collapsed: the current chunk is the whole input. *)
Lemma scan_no_candidate l :
  validate_stamp (scan l) = None →
  conversation_chunks (scan l) = [] ∧ current_chunk (scan l) = l ∧
  in_conversation (scan l) = false.
Proof.
  induction l as [|m l IH] using rev_ind; [done|].
  rewrite scan_snoc.
  destruct (scan_step_cases (scan l) m) as [->|[(f&r&_&_&_&_&->)|(f&r&_&_&_&_&->)]];
    simpl; [|done..].
  intros H. destruct (IH H) as (-> & -> & ->). done.
Qed.

(** An active scan holds at least five messages. *)
Lemma scan_active_length l :
  in_conversation (scan l) = true → (5 ≤ length (current_chunk (scan l)))%nat.
Proof.
  induction l as [|m l IH] using rev_ind; [done|].
  rewrite scan_snoc.
  destruct (scan_step_cases (scan l) m) as [->|[(f&r&Hl&_&_&_&->)|(f&r&_&_&_&_&->)]];
    simpl; [| |done].
  - intros H. rewrite length_app. specialize (IH H). lia.
  - intros _. by rewrite last5_length.
Qed.

(** The current chunk holds input messages only. *)
Lemma scan_chunk_subseteq l m : m ∈ current_chunk (scan l) → m ∈ l.
Proof.
  revert m. induction l as [|x l IH] using rev_ind; intros m.
  { simpl. by intros ?%elem_of_nil. }
  rewrite scan_snoc.
  assert (Hc : m ∈ current_chunk (scan l) ++ [x] → m ∈ l ++ [x]).
  { rewrite !elem_of_app. intros [?|?]; auto. }
  destruct (scan_step_cases (scan l) x) as [->|[(f&r&_&_&_&_&->)|(f&r&_&_&_&_&->)]];
    simpl; [done| |by intros ?%elem_of_nil].
  intros ?%last5_subseteq. auto.
Qed.

(** A recorded candidate is the timestamp of an input message. *)
Lemma scan_candidate_of_input l t :
  validate_stamp (scan l) = Some t → ∃ m, m ∈ l ∧ timestamp m = t.
Proof.
  revert t. induction l as [|x l IH] using rev_ind; intros t; [done|].
  rewrite scan_snoc.
  destruct (scan_step_cases (scan l) x) as [->|[(f&r&_&Hl&_&_&->)|(f&r&_&_&_&_&->)]];
    simpl.
  - intros (m & ? & ?)%IH. exists m. split; [|done].
    apply elem_of_app; auto.
  - intros [= <-]. exists f. split; [|done].
    assert (f ∈ current_chunk (scan l) ++ [x]) as [?%scan_chunk_subseteq|?]%elem_of_app.
    { apply last5_subseteq. rewrite Hl. left. }
    all: apply elem_of_app; auto.
  - intros [= <-]. exists x. split; [|done]. apply elem_of_app. right. left.
Qed.

(** ** Frame properties of the handlers *)

Lemma same_cog_refl st : same_cog st st.
Proof. by repeat split. Qed.

Lemma same_cog_trans st1 st2 st3 :
  same_cog st1 st2 → same_cog st2 st3 → same_cog st1 st3.
Proof.
  intros (?&?&?&?&?) (?&?&?&?&?). repeat split; congruence.
Qed.

Lemma append_line_frame E path line st o st' :
  append_line E path line st = (o, st') → same_cog st st'.
Proof.
  unfold append_line, modify, raise. destruct (append_ok E path);
    intros [= <- <-]; by repeat split.
Qed.

Lemma summarize_messages_frame E cn sn ms st o st' :
  summarize_messages E cn sn ms st = (o, st') → same_cog st st'.
Proof.
  unfold summarize_messages, ret, raise.
  destruct ms as [|m ms]; [intros [= <- <-]; apply same_cog_refl|].
  destruct (chat_completions E _) as [[|[text|] choices]|];
    try (intros [= <- <-]; apply same_cog_refl).
  destruct (last _); [apply append_line_frame|].
  intros [= <- <-]; apply same_cog_refl.
Qed.

Lemma for_each_frame {A} (body : A → M unit) l :
  (∀ x st o st', body x st = (o, st') → same_cog st st') →
  ∀ st o st', for_each l body st = (o, st') → same_cog st st'.
Proof.
  intros Hbody. induction l as [|x l IH]; intros st o st'; simpl.
  { intros [= <- <-]. apply same_cog_refl. }
  unfold bind. destruct (body x st) as [[[]|e] st1] eqn:Hx.
  - intros H. eapply same_cog_trans; eauto.
  - intros [= <- <-]. eauto.
Qed.

Lemma fetch_decompose E guild channel st :
  _fetch_message_history E guild channel st =
    if (5 <=? length (fetched E channel st))%nat then
      for_each (conversation_chunks (scan (sorted (fetched E channel st))))
        (λ chunk, summarize_messages E (channel_name channel)
                    (guild_name guild) chunk)
        (windowed E guild channel st)
    else (Ok tt, windowed E guild channel st).
Proof.
  unfold _fetch_message_history, windowed, fetched, time_data, commit_status,
    committed, save_yaml, bind, now, get, modify, ret; cbn [ticks set_ticks
    yaml_data last_validated set_message_collection message_collection].
  destruct (Nat.leb 5 _); [|done].
  destruct (validate_stamp _); [|done].
  cbn. by destruct (yaml_writable E).
Qed.

Lemma fetch_same_cog E guild channel st o st' :
  _fetch_message_history E guild channel st = (o, st') →
  same_cog (windowed E guild channel st) st'.
Proof.
  rewrite fetch_decompose. destruct (Nat.leb 5 _).
  - apply for_each_frame. intros x s o' s'. apply summarize_messages_frame.
  - intros [= <- <-]. apply same_cog_refl.
Qed.

Lemma windowed_last_validated E guild channel st :
  last_validated (yaml_data (windowed E guild channel st)) =
    if (5 <=? length (fetched E channel st))%nat
    then committed (scan (sorted (fetched E channel st))) (channel_id channel)
           (last_validated (yaml_data st))
    else last_validated (yaml_data st).
Proof.
  unfold windowed, committed. destruct (Nat.leb 5 _); [|done].
  destruct (validate_stamp _); [|done]. by destruct (yaml_writable E).
Qed.

Lemma windowed_tracked_channels E guild channel st :
  tracked_channels (yaml_data (windowed E guild channel st)) =
    tracked_channels (yaml_data st).
Proof.
  unfold windowed. destruct (Nat.leb 5 _); [|done].
  destruct (validate_stamp _); [|done]. by destruct (yaml_writable E).
Qed.

Lemma od_get_set_eq {K V} `{EqDecision K} (k : K) (v : V) d :
  od_get k (od_set k v d) = Some v.
Proof.
  induction d as [|[k' v'] d IH]; simpl; repeat (case_decide; simpl);
    congruence.
Qed.

Lemma od_get_set_ne {K V} `{EqDecision K} (k k' : K) (v : V) d :
  k ≠ k' → od_get k' (od_set k v d) = od_get k' d.
Proof.
  intros Hne. induction d as [|[k0 v0] d IH]; simpl;
    repeat (case_decide; simpl); congruence.
Qed.

Lemma mc_buffer_store g c buf mc : mc_buffer g c (mc_store g c buf mc) = buf.
Proof.
  unfold mc_buffer, mc_store.
  unfold mc_inner at 1. rewrite od_get_set_eq. simpl.
  by rewrite od_get_set_eq.
Qed.

Lemma windowed_buffer E guild channel st :
  buffer_of guild channel (windowed E guild channel st) =
    if (5 <=? length (fetched E channel st))%nat
    then current_chunk (scan (sorted (fetched E channel st)))
    else buffer_of guild channel st ++ fetched E channel st.
Proof.
  unfold windowed, buffer_of.
  destruct (Nat.leb 5 _); cbn [message_collection set_message_collection];
    apply mc_buffer_store.
Qed.

Lemma fetch_last_validated E guild channel st o st' :
  _fetch_message_history E guild channel st = (o, st') →
  last_validated (yaml_data st') =
    if (5 <=? length (fetched E channel st))%nat
    then committed (scan (sorted (fetched E channel st))) (channel_id channel)
           (last_validated (yaml_data st))
    else last_validated (yaml_data st).
Proof.
  intros (Hd & _)%fetch_same_cog. rewrite Hd. apply windowed_last_validated.
Qed.

Lemma fetch_tracked_channels E guild channel st o st' :
  _fetch_message_history E guild channel st = (o, st') →
  tracked_channels (yaml_data st') = tracked_channels (yaml_data st).
Proof.
  intros (Hd & _)%fetch_same_cog. rewrite Hd. apply windowed_tracked_channels.
Qed.


(** ** The start of a conversation *)

(** A batch whose timestamps all lie within [START_DIFF] of each other
    never passes the test of bot.py:135: the scan ends as it began, with
    everything in the current chunk. *)
Lemma scan_dense_never_starts l :
  (∀ a b, a ∈ l → b ∈ l → timestamp b - timestamp a ≤ START_DIFF) →
  scan l = {| conversation_chunks := []; current_chunk := l;
              in_conversation := false; validate_stamp := None |}.
Proof.
  induction l as [|m l IH] using rev_ind; [done|].
  intros Hdense. rewrite scan_snoc.
  rewrite IH by (intros a b Ha Hb; apply Hdense; apply elem_of_app; auto).
  destruct (scan_step_cases
    {| conversation_chunks := []; current_chunk := l;
       in_conversation := false; validate_stamp := None |} m)
    as [->|[(f&r&_&Hl&_&Ht&_)|(f&r&_&_&?&_)]]; simpl in *; [done| |done].
  assert (Hf : f ∈ l ++ [m]).
  { apply last5_subseteq. rewrite Hl. left. }
  assert (Hm : m ∈ l ++ [m]) by (apply elem_of_app; right; left).
  specialize (Hdense f m Hf Hm).
  unfold start_test in Ht. apply Z.ltb_lt in Ht. lia.
Qed.

(** C1 (the code departs from the claim): five messages one minute
    apart, fetched for a channel that has no checkpoint.  The claim expects
    the channel to become active with [checked_at] at the first message.
    The code records no candidate, writes no checkpoint at all, keeps the
    five messages in the Buffer and emits nothing. *)
Theorem C1_dense_batch_is_not_activated :
  let batch := spaced 5 1 in
  let st := cog_init empty_data false in
  let '(o, st') :=
    _fetch_message_history (env_at 10 batch) a_guild chan7 st in
  fetched (env_at 10 batch) chan7 st = batch ∧
  in_conversation (scan (sorted batch)) = false ∧
  validate_stamp (scan (sorted batch)) = None ∧
  o = Ok tt ∧
  last_validated (yaml_data st') !! str 7 = None ∧
  buffer_of a_guild chan7 st' = batch ∧
  map_to_list (summaries st') = [].
Proof. vm_compute. repeat split; reflexivity. Qed.

(** ** The end of a conversation *)

(** In the active state a message that comes [END_DIFF] or more after
    the fifth message from the end of the chunk it joins does not pass
    the test of bot.py:142: nothing is finalized, the scan stays active,
    the candidate checkpoint is kept and the message joins the current
    chunk. *)
Lemma scan_long_gap_never_ends (pre : list MessageData)
    (m fifth : MessageData) :
  in_conversation (scan pre) = true →
  fifth_from_end (current_chunk (scan pre) ++ [m]) = Some fifth →
  END_DIFF ≤ timestamp m - timestamp fifth →
  scan (pre ++ [m]) =
    {| conversation_chunks := conversation_chunks (scan pre);
       current_chunk := current_chunk (scan pre) ++ [m];
       in_conversation := true;
       validate_stamp := validate_stamp (scan pre) |}.
Proof.
  intros Hin Hfifth Hgap. rewrite scan_snoc.
  unfold fifth_from_end in Hfifth. unfold scan_step.
  destruct (Nat.leb_spec 5 (length (current_chunk (scan pre) ++ [m])))
    as [Hlen|Hlen]; [|done].
  destruct (Nat.ltb_spec (length (current_chunk (scan pre) ++ [m])) 5)
    as [?|_]; [lia|].
  destruct (last5 _) as [|f rest]; [done|].
  injection Hfifth as ->. rewrite Hin. simpl.
  unfold end_test.
  destruct (Z.gtb_spec (timestamp fifth) (timestamp m - END_DIFF));
    [lia|done].
Qed.

(** When the test of bot.py:142 does pass, the chunk that is finalized
    runs through the message that was just appended (bot.py:131, 144),
    and the current chunk starts afresh, empty (bot.py:145). *)
Lemma scan_end_emits_through_m (pre : list MessageData)
    (m fifth : MessageData) :
  in_conversation (scan pre) = true →
  fifth_from_end (current_chunk (scan pre) ++ [m]) = Some fifth →
  end_test fifth m = true →
  scan (pre ++ [m]) =
    {| conversation_chunks :=
         conversation_chunks (scan pre) ++ [current_chunk (scan pre) ++ [m]];
       current_chunk := [];
       in_conversation := false;
       validate_stamp := Some (timestamp m) |}.
Proof.
  intros Hin Hfifth Hend. rewrite scan_snoc.
  unfold fifth_from_end in Hfifth. unfold scan_step.
  destruct (Nat.leb_spec 5 (length (current_chunk (scan pre) ++ [m])))
    as [Hlen|Hlen]; [|done].
  destruct (Nat.ltb_spec (length (current_chunk (scan pre) ++ [m])) 5)
    as [?|_]; [lia|].
  destruct (last5 _) as [|f rest]; [done|].
  injection Hfifth as ->. rewrite Hin, Hend. done.
Qed.

(** C2 (the code departs from the claim): Scenario C.  Ten messages, at
    minutes 0, 20, 40, 60, 80, 100, 105, 125, 145 and 165, leave the scan
    active with all ten in the current chunk; the eleventh comes at
    minute 170, which is 70 minutes after the sixth-to-last message and
    65 minutes after the message that is fifth from the end once it has
    joined the chunk.  The claim expects one chunk of the first ten, the
    channel idle, the checkpoint at the eleventh message and the Buffer
    holding the eleventh message alone.  The code finalizes nothing: the
    scan stays active with its candidate at the first message, the
    checkpoint written is that candidate with the channel still active,
    all eleven messages stay in the Buffer and nothing is summarized. *)
Theorem C2_long_gap_does_not_end_conversation :
  let first10 := at_minutes [0; 20; 40; 60; 80; 100; 105; 125; 145; 165] in
  let m11 := msg_at 170 10 in
  let batch := first10 ++ [m11] in
  let st := cog_init empty_data false in
  let '(o, st') :=
    _fetch_message_history (env_at 175 batch) a_guild chan7 st in
  (in_conversation (scan first10) = true ∧
   current_chunk (scan first10) = first10 ∧
   (timestamp <$> first10 !! 5%nat) = Some (timestamp m11 - minutes 70) ∧
   (timestamp <$> fifth_from_end (first10 ++ [m11])) =
     Some (timestamp m11 - minutes 65)) ∧
  (fetched (env_at 175 batch) chan7 st = batch ∧ sorted batch = batch) ∧
  scan (sorted batch) =
    {| conversation_chunks := []; current_chunk := batch;
       in_conversation := true; validate_stamp := Some (minutes 0) |} ∧
  o = Ok tt ∧
  last_validated (yaml_data st') !! str 7 =
    Some {| checked_at := minutes 0; active := true |} ∧
  buffer_of a_guild chan7 st' = batch ∧
  map_to_list (summaries st') = [].
Proof. vm_compute. repeat split; reflexivity. Qed.

(** ** What the scan sees, and what becomes of the Buffer *)

(** With a batch of five or more, the Buffer after the evaluation is the
    current chunk of the scan of the batch alone, whatever the Buffer
    held before. *)
Lemma fetch_buffer E guild channel st o st' :
  _fetch_message_history E guild channel st = (o, st') →
  buffer_of guild channel st' =
    if (5 <=? length (fetched E channel st))%nat
    then current_chunk (scan (sorted (fetched E channel st)))
    else buffer_of guild channel st ++ fetched E channel st.
Proof.
  intros (_ & Hmc & _)%fetch_same_cog.
  rewrite <- windowed_buffer. unfold buffer_of. by rewrite Hmc.
Qed.

(** With a batch of five or more that records a candidate, the
    checkpoint of the channel is the candidate and the final flag. *)
Lemma fetch_commit E guild channel st o st' stamp :
  _fetch_message_history E guild channel st = (o, st') →
  (5 ≤ length (fetched E channel st))%nat →
  validate_stamp (scan (sorted (fetched E channel st))) = Some stamp →
  last_validated (yaml_data st') !! str (channel_id channel) =
    Some {| checked_at := stamp;
            active := in_conversation
                        (scan (sorted (fetched E channel st))) |}.
Proof.
  intros Hrun Hlen Hstamp. rewrite (fetch_last_validated _ _ _ _ _ _ Hrun).
  destruct (Nat.leb_spec 5 (length (fetched E channel st))); [|lia].
  unfold committed. rewrite Hstamp. apply lookup_insert_eq.
Qed.

(** C3 (the code departs from the claim): a cog whose YAML file holds a
    checkpoint at minute 90 for channel 7 receives a live message [p] at
    minute 95; the sweep of minute 115 moves [checked_at] to minute 100
    and leaves [p] in the Buffer; at minute 120 the gateway reconnects and
    [on_ready] fetches the history after minute 100, which has five
    messages.  The scan runs over these five only; the Buffer is replaced
    by them; [p] is gone, and was never part of a chunk handed to the
    summarizer. *)
Theorem C3_buffered_message_is_discarded :
  let p := msg_at 95 100 in
  let batch := (λ i, msg_at (101 + i) i) <$> [0; 1; 2; 3; 4] in
  let E := env_with (λ n, if (n <? 2)%nat then minutes 115 else minutes 120)
             (p :: batch) in
  let loaded :=
    {| last_validated := {[ str 7 := {| checked_at := minutes 90;
                                         active := false |} ]};
       tracked_channels := None |} in
  let '(o1, st1) :=
    then_run (on_message E (live 7 p)) (check_conversations E)
      (cog_init loaded false) in
  let '(o2, st2) := on_ready E st1 in
  o1 = Ok tt ∧
  buffer_of a_guild chan7 st1 = [p] ∧
  last_validated (yaml_data st1) !! str 7 =
    Some {| checked_at := minutes 100; active := false |} ∧
  fetched E chan7 st1 = batch ∧
  o2 = Ok tt ∧
  buffer_of a_guild chan7 st2 = batch ∧
  (p ∉ buffer_of a_guild chan7 st2) ∧
  map_to_list (summaries st2) = [] ∧
  never_awaited st2 = [].
Proof.
  vm_compute. repeat split; try reflexivity.
  intros H. repeat (apply elem_of_cons in H as [H|H]; [discriminate H|]).
  by apply elem_of_nil in H.
Qed.

(** ** Checkpoint and Buffer *)




(** ** The writers of [checked_at] *)

(** A commit of the windowing scan does not move a checkpoint back when
    the feed returns only messages after the timestamp it was asked for. *)
Lemma fetch_checked_at_mono E guild channel st o st' k old :
  (∀ c after m, m ∈ history E c after → after < timestamp m) →
  _fetch_message_history E guild channel st = (o, st') →
  last_validated (yaml_data st) !! k = Some old →
  ∃ new, last_validated (yaml_data st') !! k = Some new ∧
         checked_at old ≤ checked_at new.
Proof.
  intros Hfeed Hrun Hold. rewrite (fetch_last_validated _ _ _ _ _ _ Hrun).
  destruct (Nat.leb 5 _); [|exists old; split; [done|lia]].
  unfold committed.
  destruct (validate_stamp _) as [t|] eqn:Hstamp; [|exists old; split; [done|lia]].
  destruct (decide (k = str (channel_id channel))) as [->|Hne].
  - rewrite lookup_insert_eq. eexists. split; [done|]. simpl.
    apply scan_candidate_of_input in Hstamp as (m & Hm & <-).
    rewrite elem_of_sorted in Hm. unfold fetched, time_data in Hm.
    rewrite Hold in Hm. simpl in Hm. apply Hfeed in Hm. lia.
  - rewrite lookup_insert_ne by done. exists old. split; [done|lia].
Qed.

Lemma track_channel_enable E channel st tracked :
  tracked_channels (yaml_data st) = Some tracked →
  KInt (channel_id channel) ∉ tracked →
  track_channel E channel true st =
    match _fetch_message_history E (channel_guild channel) channel
            (enabled E channel tracked st) with
    | (Ok _, st') => (Ok true, saved E st')
    | (Raise e, st') => (Raise e, st')
    end.
Proof.
  intros Htracked Hnotin. unfold track_channel, bind at 1, get.
  rewrite Htracked. rewrite (bool_decide_eq_false_2 _ Hnotin).
  rewrite bool_decide_eq_false_2 by done.
  unfold bind, modify, now, save_yaml, ret, enabled, saved.
  cbn [ticks set_tracked_channels set_yaml_data set_ticks yaml_data
       last_validated].
  destruct (last_validated (yaml_data st) !! str (channel_id channel))
    as [status|]; [destruct (checked_at status <? _)|];
    by destruct (_fetch_message_history _ _ _ _) as [[[]|e] st1].
Qed.

Lemma enabled_checked_at_mono E channel tracked st k old :
  last_validated (yaml_data st) !! k = Some old →
  ∃ mid, last_validated (yaml_data (enabled E channel tracked st)) !! k
           = Some mid ∧
         checked_at old ≤ checked_at mid.
Proof.
  intros Hold. unfold enabled.
  cbn [ticks set_tracked_channels set_yaml_data set_ticks yaml_data
       last_validated].
  destruct (last_validated (yaml_data st) !! str (channel_id channel))
    as [status|] eqn:Hstatus.
  - destruct (Z.ltb_spec (checked_at status) (clock E (ticks st) - hours 3));
      cbn; [|exists old; split; [done|lia]].
    destruct (decide (k = str (channel_id channel))) as [->|Hne].
    + rewrite lookup_insert_eq. eexists. split; [done|]. cbn.
      rewrite Hold in Hstatus. injection Hstatus as <-. lia.
    + rewrite lookup_insert_ne by done. exists old. split; [done|lia].
  - cbn. destruct (decide (k = str (channel_id channel))) as [->|Hne].
    + congruence.
    + rewrite lookup_insert_ne by done. exists old. split; [done|lia].
Qed.

Lemma saved_yaml_data E st : yaml_data (saved E st) = yaml_data st.
Proof. unfold saved. by destruct (yaml_writable E). Qed.

Lemma saved_message_collection E st :
  message_collection (saved E st) = message_collection st.
Proof. unfold saved. by destruct (yaml_writable E). Qed.

Lemma track_channel_checked_at_mono E channel track st o st' k old :
  (∀ c after m, m ∈ history E c after → after < timestamp m) →
  track_channel E channel track st = (o, st') →
  last_validated (yaml_data st) !! k = Some old →
  ∃ new, last_validated (yaml_data st') !! k = Some new ∧
         checked_at old ≤ checked_at new.
Proof.
  intros Hfeed Hrun Hold.
  destruct (tracked_channels (yaml_data st)) as [tracked|] eqn:Htracked;
    cycle 1.
  { unfold track_channel, bind, get in Hrun. rewrite Htracked in Hrun.
    injection Hrun as <- <-. exists old. split; [done|lia]. }
  destruct track.
  - destruct (decide (KInt (channel_id channel) ∈ tracked)) as [Hin|Hnotin].
    { unfold track_channel, bind, get in Hrun. rewrite Htracked in Hrun.
      rewrite (bool_decide_eq_true_2 _ Hin) in Hrun.
      injection Hrun as <- <-. exists old. split; [done|lia]. }
    rewrite (track_channel_enable _ _ _ _ Htracked Hnotin) in Hrun.
    destruct (enabled_checked_at_mono E channel tracked st k old Hold)
      as (mid & Hmid & Hle).
    destruct (_fetch_message_history _ _ _ _) as [[[]|e] st1] eqn:Hfetch;
      destruct (fetch_checked_at_mono _ _ _ _ _ _ _ _ Hfeed Hfetch Hmid)
        as (new & Hnew & Hle');
      injection Hrun as <- <-; exists new; (split; [|lia]);
      by rewrite ?saved_yaml_data.
  - unfold track_channel, bind, get in Hrun. rewrite Htracked in Hrun.
    case_bool_decide; [injection Hrun as <- <-; exists old; split; [done|lia]|].
    unfold modify, save_yaml, ret, raise in Hrun. cbn in Hrun.
    destruct (od_del _ _); cbn in Hrun; injection Hrun as <- <-;
      exists old; (split; [|lia]); [|done].
    by destruct (yaml_writable E).
Qed.

Lemma update_status_Ok k f st st' :
  update_status k f st = (Ok tt, st') →
  ∃ s, last_validated (yaml_data st) !! k = Some s ∧
       st' = set_last_validated (<[k := f s]> (last_validated (yaml_data st)))
               st.
Proof.
  unfold update_status, bind, get, modify, raise.
  destruct (last_validated (yaml_data st) !! k) as [s|]; [|done].
  intros [= <-]. by exists s.
Qed.

(** The sweep overwrites [checked_at] with [time_to_active], whatever the
    channel held before. *)
Lemma sweep_channel_checked_at E idle act ta ti gid cid st st' :
  sweep_channel E idle act ta ti gid cid st = (Ok tt, st') →
  ∃ new, last_validated (yaml_data st') !! str cid = Some new ∧
         checked_at new = ta.
Proof.
  unfold sweep_channel. unfold bind at 1.
  match goal with |- context [let (_, _) := ?m st in _] =>
    destruct (m st) as [[[]|e] st1] end; [|done].
  intros (s & _ & ->)%update_status_Ok. cbn.
  rewrite lookup_insert_eq. by eexists.
Qed.


(** ** The sweep as a whole *)

Lemma od_keys_set_known {K V} `{EqDecision K} (k : K) (v : V) d :
  k ∈ od_keys d → od_keys (od_set k v d) = od_keys d.
Proof.
  induction d as [|[k' v'] d IH]; simpl; [by intros ?%elem_of_nil|].
  case_decide as Hk; [by subst|].
  intros [?|Hin]%elem_of_cons; [done|]. simpl. f_equal. by apply IH.
Qed.

Lemma od_get_known {K V} `{EqDecision K} (k : K) (d : list (K * V)) :
  k ∈ od_keys d → is_Some (od_get k d).
Proof.
  induction d as [|[k' v'] d IH]; simpl; [by intros ?%elem_of_nil|].
  case_decide; [by eexists|].
  intros [?|Hin]%elem_of_cons; [done|]. by apply IH.
Qed.

(** Storing a Buffer under keys that exist keeps every key list. *)
Lemma mc_store_keys g c buf mc :
  g ∈ od_keys mc → c ∈ od_keys (mc_inner g mc) →
  od_keys (mc_store g c buf mc) = od_keys mc ∧
  ∀ g', od_keys (mc_inner g' (mc_store g c buf mc)) = od_keys (mc_inner g' mc).
Proof.
  intros Hg Hc. unfold mc_store. split; [by apply od_keys_set_known|].
  intros g'. unfold mc_inner at 1. destruct (decide (g = g')) as [<-|Hne].
  - rewrite od_get_set_eq. cbn. by apply od_keys_set_known.
  - by rewrite od_get_set_ne.
Qed.

(** An update that keeps or sets [checked_at] = [t] keeps every
    checkpoint that is at [t]. *)
Lemma update_status_swept k f st st' k' t :
  (∀ s, checked_at s = t → checked_at (f s) = t) →
  update_status k f st = (Ok tt, st') →
  checked_at_is t st k' → checked_at_is t st' k'.
Proof.
  intros Hf (s0 & Hs0 & ->)%update_status_Ok (s & Hs & Ht).
  unfold checked_at_is. cbn.
  destruct (decide (k = k')) as [<-|Hne].
  - rewrite lookup_insert_eq. eexists. split; [done|].
    apply Hf. congruence.
  - rewrite lookup_insert_ne by done. eauto.
Qed.

Lemma checked_at_is_yaml t st st' k :
  yaml_data st' = yaml_data st →
  checked_at_is t st k → checked_at_is t st' k.
Proof. unfold checked_at_is. by intros ->. Qed.

Lemma update_status_message_collection k f st o st' :
  update_status k f st = (o, st') →
  message_collection st' = message_collection st.
Proof.
  unfold update_status, bind, get, modify, raise.
  destruct (_ !! k); by intros [= <- <-].
Qed.

Lemma call_without_await_frame E cid ms st o st' :
  call_without_await E cid ms st = (o, st') →
  yaml_data st' = yaml_data st ∧
  message_collection st' = message_collection st ∧
  summaries st' = summaries st.
Proof.
  unfold call_without_await, modify, raise.
  destruct (get_channel E cid); by intros [= <- <-].
Qed.

(** One channel of the sweep: the key lists of the message collection
    are kept, a checkpoint already at [ta] stays at [ta], and the
    channel's own checkpoint is at [ta]. *)
Lemma sweep_channel_step E idle act ta ti gid cid st st' :
  gid ∈ od_keys (message_collection st) →
  cid ∈ od_keys (mc_inner gid (message_collection st)) →
  sweep_channel E idle act ta ti gid cid st = (Ok tt, st') →
  keys_kept st st' ∧
  (∀ k, checked_at_is ta st k → checked_at_is ta st' k) ∧
  checked_at_is ta st' (str cid).
Proof.
  intros Hg Hc Hrun. unfold keys_kept.
  split; [|split]; [| |by eapply sweep_channel_checked_at].
  - revert Hrun. unfold sweep_channel. unfold bind at 1.
    match goal with |- context [let (_, _) := ?m st in _] =>
      destruct (m st) as [[[]|e] st1] eqn:Hfirst end; [|done].
    intros Hlast%update_status_message_collection. rewrite Hlast.
    revert Hfirst. clear Hlast.
    repeat case_bool_decide; unfold bind, get, ret;
      try (by intros [= <-]);
      (destruct (fifth_from_end _) as [fifth|]; [|by intros [= <-]]).
    + destruct (_ >? _); [|by intros [= <-]].
      by intros ->%update_status_message_collection.
    + destruct (_ <? _); [|by intros [= <-]].
      destruct (update_status _ _ st) as [[[]|e1] s1] eqn:H1; [|done].
      destruct (call_without_await _ _ _ s1) as [[[]|e2] s2] eqn:H2; [|done].
      unfold modify. intros [= <-]. cbn [message_collection
        set_message_collection].
      apply update_status_message_collection in H1.
      apply call_without_await_frame in H2 as (_ & H2 & _).
      rewrite H2, H1. by apply mc_store_keys.
  - intros k Hk. revert Hrun. unfold sweep_channel. unfold bind at 1.
    match goal with |- context [let (_, _) := ?m st in _] =>
      destruct (m st) as [[[]|e] st1] eqn:Hfirst end; [|done].
    intros Hlast. eapply update_status_swept; [|exact Hlast|]; [done|].
    revert Hfirst. clear Hlast.
    repeat case_bool_decide; unfold bind, get, ret;
      try (by intros [= <-]);
      (destruct (fifth_from_end _) as [fifth|]; [|by intros [= <-]]).
    + destruct (_ >? _); [|by intros [= <-]].
      intros H1. eapply update_status_swept; [|exact H1|]; done.
    + destruct (_ <? _); [|by intros [= <-]].
      destruct (update_status _ _ st) as [[[]|e1] s1] eqn:H1; [|done].
      destruct (call_without_await _ _ _ s1) as [[[]|e2] s2] eqn:H2; [|done].
      unfold modify. intros [= <-].
      apply call_without_await_frame in H2 as (H2 & _ & _).
      apply (checked_at_is_yaml ta s1); [by rewrite <- H2|].
      eapply update_status_swept; [|exact H1|]; done.
Qed.

Lemma keys_kept_refl st : keys_kept st st.
Proof. by split. Qed.

Lemma keys_kept_trans st1 st2 st3 :
  keys_kept st1 st2 → keys_kept st2 st3 → keys_kept st1 st3.
Proof.
  intros [H1 H1'] [H2 H2']. split; [congruence|].
  intros g. by rewrite H2', H1'.
Qed.

(** the inner loop of the sweep, over channels of one guild *)
Lemma sweep_inner_loop E idle act ta ti gid cids st st' :
  gid ∈ od_keys (message_collection st) →
  (∀ cid, cid ∈ cids → cid ∈ od_keys (mc_inner gid (message_collection st))) →
  for_each cids (λ cid, sweep_channel E idle act ta ti gid cid) st
    = (Ok tt, st') →
  keys_kept st st' ∧
  (∀ k, checked_at_is ta st k → checked_at_is ta st' k) ∧
  ∀ cid, cid ∈ cids → checked_at_is ta st' (str cid).
Proof.
  revert st. induction cids as [|cid cids IH]; intros st Hg Hcids; simpl.
  { intros [= <-]. split; [apply keys_kept_refl|]. split; [done|].
    by intros ? ?%elem_of_nil. }
  unfold bind.
  destruct (sweep_channel E idle act ta ti gid cid st) as [[[]|e] st1]
    eqn:Hstep; [|done].
  intros Hrest.
  apply sweep_channel_step in Hstep as (Hkeys & Hkeep & Hcid);
    [|done|apply Hcids; left].
  apply IH in Hrest as (Hkeys' & Hkeep' & Hcids').
  - split; [by eapply keys_kept_trans|]. split; [by auto|].
    intros c [->|?]%elem_of_cons; auto.
  - destruct Hkeys as [-> _]. done.
  - intros c Hc. destruct Hkeys as [_ ->]. apply Hcids. by right.
Qed.

(** the outer loop, over guilds *)
Lemma sweep_outer_loop E idle act ta ti gids st st' :
  (∀ gid, gid ∈ gids → gid ∈ od_keys (message_collection st)) →
  for_each gids (λ gid,
    st <- get ;;
    for_each (od_keys (mc_inner gid (message_collection st))) (λ cid,
      sweep_channel E idle act ta ti gid cid)) st = (Ok tt, st') →
  keys_kept st st' ∧
  (∀ k, checked_at_is ta st k → checked_at_is ta st' k) ∧
  ∀ gid cid, gid ∈ gids →
    cid ∈ od_keys (mc_inner gid (message_collection st)) →
    checked_at_is ta st' (str cid).
Proof.
  revert st. induction gids as [|gid gids IH]; intros st Hgids; simpl.
  { intros [= <-]. split; [apply keys_kept_refl|]. split; [done|].
    by intros ? ? ?%elem_of_nil. }
  unfold bind at 1. unfold bind at 1, get.
  destruct (for_each (od_keys (mc_inner gid (message_collection st))) _ st)
    as [[[]|e] st1] eqn:Hinner; [|done].
  intros Hrest.
  apply sweep_inner_loop in Hinner as (Hkeys & Hkeep & Hcids);
    [|apply Hgids; left|done].
  apply IH in Hrest as (Hkeys' & Hkeep' & Hall).
  - split; [by eapply keys_kept_trans|]. split; [by auto|].
    intros g c [->|Hg]%elem_of_cons Hc; [by auto|].
    apply (Hall g c Hg). destruct Hkeys as [_ ->]. done.
  - intros g Hg. destruct Hkeys as [-> _]. apply Hgids. by right.
Qed.

(** A sweep that returns normally has set [checked_at] of every channel
    of the message collection to the first clock reading minus
    [START_DIFF]. *)
Lemma check_conversations_checked_at E st st' gid cid :
  check_conversations E st = (Ok tt, st') →
  gid ∈ od_keys (message_collection st) →
  cid ∈ od_keys (mc_inner gid (message_collection st)) →
  checked_at_is (clock E (ticks st) - START_DIFF) st' (str cid).
Proof.
  unfold check_conversations. unfold bind at 1, get.
  unfold bind at 1, now. unfold bind at 1. unfold bind at 1.
  match goal with |- context [for_each ?l ?b ?s] =>
    destruct (for_each l b s) as [[[]|e] st1] eqn:Hloops end; [|done].
  unfold save_yaml, modify. intros [= <-] Hg Hc.
  apply sweep_outer_loop in Hloops as (_ & _ & Hall); [|done].
  destruct (Hall gid cid Hg Hc) as (s & Hs & Ht).
  exists s. split; [|done]. by destruct (yaml_writable E).
Qed.

(** ** [checked_at] across its writers *)

(** C5, the claim as stated fails: a fetch at minute 52 finalizes a chunk
    at the message of minute 50 and commits [checked_at] = minute 50; the
    sweep that follows sets [checked_at] to minute 52 - 15 = minute 37. *)
Lemma C5_counterexample :
  let E := env_at 52 (spaced 6 10) in
  let '(o1, st1) :=
    _fetch_message_history E a_guild chan7 (cog_init empty_data false) in
  let '(o2, st2) := check_conversations E st1 in
  o1 = Ok tt ∧ o2 = Ok tt ∧
  (checked_at <$> last_validated (yaml_data st1) !! str 7) =
    Some (minutes 50) ∧
  (checked_at <$> last_validated (yaml_data st2) !! str 7) =
    Some (minutes 37) ∧
  ¬ (∀ old new,
       last_validated (yaml_data st1) !! str 7 = Some old →
       last_validated (yaml_data st2) !! str 7 = Some new →
       checked_at old ≤ checked_at new).
Proof.
  vm_compute. repeat split; try reflexivity.
  intros H. specialize (H _ _ eq_refl eq_refl). apply H. reflexivity.
Qed.

(** C5 (as amended): when the feed returns only messages after the
    timestamp it is asked for, neither a windowing evaluation nor a
    [track_channel] call moves any channel's [checked_at] back; the sweep
    does not compare at all: after a sweep that returns normally, every
    channel of the message collection holds [checked_at] =
    [time_to_active], that is the clock minus [START_DIFF], whatever it
    held before. *)
Theorem C5_checked_at_writers (E : Env) :
  (∀ c after m, m ∈ history E c after → after < timestamp m) →
  (∀ guild channel st k old,
     last_validated (yaml_data st) !! k = Some old →
     ∃ new,
       last_validated
         (yaml_data (_fetch_message_history E guild channel st).2) !! k
         = Some new ∧
       checked_at old ≤ checked_at new) ∧
  (∀ channel track st k old,
     last_validated (yaml_data st) !! k = Some old →
     ∃ new,
       last_validated
         (yaml_data (track_channel E channel track st).2) !! k = Some new ∧
       checked_at old ≤ checked_at new) ∧
  (∀ st st' gid cid,
     check_conversations E st = (Ok tt, st') →
     gid ∈ od_keys (message_collection st) →
     cid ∈ od_keys (mc_inner gid (message_collection st)) →
     checked_at_is (clock E (ticks st) - START_DIFF) st' (str cid)).
Proof.
  intros Hfeed. split; [|split].
  - intros guild channel st k old Hold.
    destruct (_fetch_message_history E guild channel st) as [o st'] eqn:Hrun.
    eapply fetch_checked_at_mono; eauto.
  - intros channel track st k old Hold.
    destruct (track_channel E channel track st) as [o st'] eqn:Hrun.
    eapply track_channel_checked_at_mono; eauto.
  - intros st st' gid cid. apply check_conversations_checked_at.
Qed.

Lemma env_with_feed_after clk h c after m :
  m ∈ history (env_with clk h) c after → after < timestamp m.
Proof.
  cbn. destruct (decide (c = 7)); [|by intros ?%elem_of_nil].
  by intros [? _]%list_elem_of_filter.
Qed.

Lemma C5_checked_at_writers_witness :
  let E := env_at 52 (spaced 6 10) in
  (∀ guild channel st k old,
     last_validated (yaml_data st) !! k = Some old →
     ∃ new,
       last_validated
         (yaml_data (_fetch_message_history E guild channel st).2) !! k
         = Some new ∧
       checked_at old ≤ checked_at new) ∧
  (∀ channel track st k old,
     last_validated (yaml_data st) !! k = Some old →
     ∃ new,
       last_validated
         (yaml_data (track_channel E channel track st).2) !! k = Some new ∧
       checked_at old ≤ checked_at new) ∧
  (∀ st st' gid cid,
     check_conversations E st = (Ok tt, st') →
     gid ∈ od_keys (message_collection st) →
     cid ∈ od_keys (mc_inner gid (message_collection st)) →
     checked_at_is (clock E (ticks st) - START_DIFF) st' (str cid)).
Proof.
  apply (C5_checked_at_writers (env_at 52 (spaced 6 10))).
  intros c after m. apply env_with_feed_after.
Defined.

(** ** The sweep *)

(** The idle transition of the sweep, for any channel that takes the
    branch of bot.py:284: the flag is cleared, the Buffer is emptied and
    [checked_at] is set, but the sorted Buffer only ends up in a coroutine
    that is never awaited; the summary files are left as they were. *)
Lemma sweep_channel_idle_transition
    E idle act ta ti gid cid st status fifth channel :
  str cid ∉ idle → str cid ∈ act →
  last_validated (yaml_data st) !! str cid = Some status →
  fifth_from_end (sorted (mc_buffer gid cid (message_collection st)))
    = Some fifth →
  timestamp fifth < ti →
  get_channel E cid = Some channel →
  ∃ st', sweep_channel E idle act ta ti gid cid st = (Ok tt, st') ∧
    last_validated (yaml_data st') !! str cid =
      Some {| checked_at := ta; active := false |} ∧
    mc_buffer gid cid (message_collection st') = [] ∧
    summaries st' = summaries st ∧
    never_awaited st' =
      never_awaited st ++
        [{| call_channel_name := channel_name channel;
            call_server_name := guild_name (channel_guild channel);
            call_messages :=
              sorted (mc_buffer gid cid (message_collection st)) |}].
Proof.
  intros Hidle Hact Hstatus Hfifth Hold Hchannel. unfold sweep_channel.
  rewrite (bool_decide_eq_false_2 _ Hidle), (bool_decide_eq_true_2 _ Hact).
  unfold bind at 1. unfold bind at 1, get. rewrite Hfifth.
  rewrite (proj2 (Z.ltb_lt _ _) Hold).
  unfold update_status, call_without_await, bind, get, modify.
  rewrite Hstatus, Hchannel.
  cbn [yaml_data last_validated set_last_validated set_yaml_data
       set_never_awaited set_message_collection message_collection
       summaries never_awaited].
  rewrite lookup_insert_eq.
  cbn [yaml_data last_validated set_last_validated set_yaml_data
       set_never_awaited set_message_collection message_collection
       summaries never_awaited].
  eexists. split; [reflexivity|].
  cbn [yaml_data last_validated set_last_validated set_yaml_data
       set_never_awaited set_message_collection message_collection
       summaries never_awaited].
  rewrite lookup_insert_eq, mc_buffer_store. done.
Qed.

(** C6 (the code departs from the claim): channel 7 has a checkpoint in
    the YAML file; five live messages arrive, one per minute from minute
    0; the sweep of minute 5 marks the channel active; nothing else
    arrives and the sweep of minute 74 finds the fifth-from-end message
    older than an hour.  It sets [active] to false and empties the Buffer,
    as the claim says, but nothing reaches the summarizer: the coroutine
    built from the sorted Buffer is never awaited, no backend call is made
    and no summary line is written, although awaiting it in the same
    state would have written one. *)
Theorem C6_sweep_drops_chunk_without_summarizing :
  let E := env_with (λ n, if (n <? 2)%nat then minutes 5 else minutes 74) [] in
  let loaded :=
    {| last_validated := {[ str 7 := {| checked_at := minutes (-10);
                                         active := false |} ]};
       tracked_channels := None |} in
  let '(o1, st1) :=
    then_run (for_each (spaced 5 1) (λ m, on_message E (live 7 m)))
      (check_conversations E) (cog_init loaded false) in
  let '(o2, st2) := check_conversations E st1 in
  o1 = Ok tt ∧
  (active <$> last_validated (yaml_data st1) !! str 7) = Some true ∧
  buffer_of a_guild chan7 st1 = spaced 5 1 ∧
  o2 = Ok tt ∧
  (active <$> last_validated (yaml_data st2) !! str 7) = Some false ∧
  buffer_of a_guild chan7 st2 = [] ∧
  never_awaited st2 =
    [{| call_channel_name := "general"; call_server_name := "srv";
        call_messages := spaced 5 1 |}] ∧
  map_to_list (summaries st2) = [] ∧
  map_to_list
    (summaries (summarize_messages E "general" "srv" (spaced 5 1) st2).2) =
    [("summaries/srv_general.jsonl",
      [{| summary := "a summary"; log_timestamp := minutes 4 |}])].
Proof. vm_compute. repeat split; reflexivity. Qed.

(** C7 (the code departs from the claim): as before, but a live message
    on channel 8, which has no checkpoint, arrives first.  The sweep of
    minute 74 reaches channel 8 first, raises [KeyError] at bot.py:297 and
    stops: channel 7, which it would have finalized, is still active with
    its five messages and its old [checked_at], and the YAML file is not
    written. *)
Theorem C7_sweep_aborts_on_channel_without_checkpoint :
  let E := env_at 74 [] in
  let loaded :=
    {| last_validated := {[ str 7 := {| checked_at := minutes (-10);
                                         active := true |} ]};
       tracked_channels := None |} in
  let '(o1, st1) :=
    then_run (on_message E (live 8 (msg_at 1 50)))
      (for_each (spaced 5 1) (λ m, on_message E (live 7 m)))
      (cog_init loaded false) in
  let '(o2, st2) := check_conversations E st1 in
  o1 = Ok tt ∧
  od_keys (mc_inner (KInt 10) (message_collection st1)) = [8; 7] ∧
  last_validated (yaml_data st1) !! str 8 = None ∧
  o2 = Raise KeyError ∧
  last_validated (yaml_data st2) !! str 7 =
    Some {| checked_at := minutes (-10); active := true |} ∧
  buffer_of a_guild chan7 st2 = spaced 5 1 ∧
  never_awaited st2 = [] ∧
  map_to_list (last_validated (yaml_file st2)) =
    map_to_list (last_validated (yaml_file st1)).
Proof. vm_compute. repeat split; reflexivity. Qed.

(** A channel that has no checkpoint and was in neither list makes the
    body of the sweep raise at its last statement. *)
Lemma sweep_channel_without_checkpoint E idle act ta ti gid cid st :
  str cid ∉ idle → str cid ∉ act →
  last_validated (yaml_data st) !! str cid = None →
  sweep_channel E idle act ta ti gid cid st = (Raise KeyError, st).
Proof.
  intros Hidle Hact Hnone. unfold sweep_channel.
  rewrite !bool_decide_eq_false_2 by done.
  unfold update_status, bind, ret, get, raise. by rewrite Hnone.
Qed.

(** A raise in the body ends the loop: later elements are not visited. *)
Lemma for_each_raise {A} (body : A → M unit) l1 x l2 st st1 st2 e :
  for_each l1 body st = (Ok tt, st1) →
  body x st1 = (Raise e, st2) →
  for_each (l1 ++ x :: l2) body st = (Raise e, st2).
Proof.
  revert st. induction l1 as [|y l1 IH]; intros st; simpl.
  - intros [= <-] Hx. unfold bind. by rewrite Hx.
  - unfold bind. destruct (body y st) as [[[]|e'] st'] eqn:Hy; [|done].
    intros H1 Hx. by apply IH.
Qed.

(** ** The tracker *)

Lemma od_del_is_Some {K V} `{EqDecision K} (k : K) (d : list (K * V)) :
  is_Some (od_get k d) → is_Some (od_del k d).
Proof.
  induction d as [|[k' v] d IH]; simpl; [by intros [? ?]|].
  case_decide; [by eexists|].
  intros [d' ->]%IH. by eexists.
Qed.

Lemma od_get_None_keys {K V} `{EqDecision K} (k : K) (d : list (K * V)) :
  k ∉ od_keys d → od_get k d = None.
Proof.
  induction d as [|[k' v] d IH]; simpl; [done|].
  rewrite not_elem_of_cons. intros [Hne Hnotin].
  rewrite decide_False by done. by apply IH.
Qed.

(** In a dictionary (keys are unique) a deleted key is gone. *)
Lemma od_get_del {K V} `{EqDecision K} (k : K) (d d' : list (K * V)) :
  NoDup (od_keys d) → od_del k d = Some d' → od_get k d' = None.
Proof.
  revert d'. induction d as [|[k' v] d IH]; intros d'; simpl; [done|].
  rewrite NoDup_cons. intros [Hnotin Hnodup].
  case_decide as Hk.
  - intros [= <-]. subst k'. by apply od_get_None_keys.
  - destruct (od_del k d) as [d0|] eqn:Hdel; [|done].
    intros [= <-]. simpl. rewrite decide_False by done. by apply IH.
Qed.

(** C8, the claim as stated fails: channel 7 is tracked by its integer id
    and has a checkpoint and one buffered message; disabling tracking
    removes the id and the Buffer, and the checkpoint is still there. *)
Lemma C8_counterexample :
  let E := env_at 10 [] in
  let status := {| checked_at := minutes 0; active := false |} in
  let loaded :=
    {| last_validated := {[ str 7 := status ]};
       tracked_channels := Some {[ KInt 7 ]} |} in
  let '(o1, st1) := on_message E (live 7 (msg_at 1 50)) (cog_init loaded true) in
  let '(o2, st2) := track_channel E chan7 false st1 in
  buffer_of a_guild chan7 st1 = [msg_at 1 50] ∧
  o2 = Ok true ∧
  od_get 7 (mc_inner (KInt 10) (message_collection st2)) = None ∧
  last_validated (yaml_data st2) !! str 7 = Some status ∧
  ¬ (od_get 7 (mc_inner (KInt 10) (message_collection st2)) = None ∧
     last_validated (yaml_data st2) !! str 7 = None).
Proof.
  vm_compute. repeat split; try reflexivity. intros [_ H]. discriminate H.
Qed.

(** C8 (as amended): for a channel whose integer id is in the tracked set
    and which has a Buffer, [track_channel channel False] returns [True],
    removes that id from the tracked set and removes the channel's Buffer
    from the message collection; the checkpoints are kept: the
    last-validated map is left as it was. *)
Theorem C8_disable_discards_buffer_keeps_checkpoint
    (E : Env) (channel : Channel) (st : State) (tracked : gset key) :
  let g := KInt (guild_id (channel_guild channel)) in
  tracked_channels (yaml_data st) = Some tracked →
  KInt (channel_id channel) ∈ tracked →
  NoDup (od_keys (mc_inner g (message_collection st))) →
  is_Some (od_get (channel_id channel) (mc_inner g (message_collection st))) →
  ∃ st', track_channel E channel false st = (Ok true, st') ∧
    tracked_channels (yaml_data st') =
      Some (tracked ∖ {[KInt (channel_id channel)]}) ∧
    od_get (channel_id channel) (mc_inner g (message_collection st')) = None ∧
    last_validated (yaml_data st') = last_validated (yaml_data st).
Proof.
  intros g Htracked Hin Hnodup Hbuf.
  unfold track_channel, bind at 1, get. rewrite Htracked.
  rewrite (bool_decide_eq_true_2 _ Hin).
  rewrite bool_decide_eq_false_2 by done.
  unfold bind, modify, save_yaml, ret, get.
  cbn [message_collection set_tracked_channels set_yaml_data].
  fold g.
  destruct (od_del_is_Some _ _ Hbuf) as [inner' Hdel]. rewrite Hdel.
  eexists. split; [reflexivity|].
  destruct (yaml_writable E);
    cbn [tracked_channels yaml_data last_validated message_collection
         set_yaml_file set_message_collection set_tracked_channels
         set_yaml_data];
    (split; [done|split; [|done]]);
    unfold mc_inner at 1; rewrite od_get_set_eq; cbn [default];
    by apply (od_get_del _ _ _ Hnodup Hdel).
Qed.

Lemma C8_disable_discards_buffer_keeps_checkpoint_witness :
  let st :=
    {| yaml_data := {| last_validated := ∅;
                       tracked_channels := Some {[ KInt 7 ]} |};
       message_collection := [(KInt 10, [(7, [msg_at 1 50])])];
       yaml_file := empty_data; summaries := ∅; never_awaited := [];
       ticks := 0 |} in
  ∃ st', track_channel (env_at 10 []) chan7 false st = (Ok true, st') ∧
    tracked_channels (yaml_data st') = Some ({[ KInt 7 ]} ∖ {[KInt 7]}) ∧
    od_get 7 (mc_inner (KInt 10) (message_collection st')) = None ∧
    last_validated (yaml_data st') = last_validated (yaml_data st).
Proof.
  intros st.
  apply (C8_disable_discards_buffer_keeps_checkpoint (env_at 10 []) chan7 st
           {[ KInt 7 ]}).
  - reflexivity.
  - apply elem_of_singleton. reflexivity.
  - vm_compute. apply NoDup_singleton.
  - vm_compute. eexists. reflexivity.
Defined.

(** ** The summarizer *)




(** ** Tracked ids and admission *)

(** C10: in whitelist mode, enabling tracking for a channel whose integer
    id is not in the tracked set stores the string form of the id; the
    integer id is still not a member, so the admission test of
    [on_message], [on_ready] and [track_channel] still fails for the
    channel, and a live message on it is dropped: [on_message] leaves the
    whole state, and with it every Buffer, as it was. *)
Theorem C10_enabled_channel_is_still_not_admitted
    (E : Env) (channel : Channel) (st : State) (tracked : gset key)
    (message : Message) :
  tracked_channels (yaml_data st) = Some tracked →
  KInt (channel_id channel) ∉ tracked →
  message_channel message = channel_id channel →
  let st' := (track_channel E channel true st).2 in
  tracked_channels (yaml_data st') =
    Some (tracked ∪ {[KStr (str (channel_id channel))]}) ∧
  (KInt (channel_id channel) ∉
     tracked ∪ {[KStr (str (channel_id channel))]}) ∧
  not_tracked (yaml_data st') (channel_id channel) = true ∧
  on_message E message st' = (Ok tt, st').
Proof.
  intros Htracked Hnotin Hchannel st'.
  assert (Hstill :
    KInt (channel_id channel) ∉ tracked ∪ {[KStr (str (channel_id channel))]}).
  { rewrite not_elem_of_union, not_elem_of_singleton. done. }
  assert (Hset : tracked_channels (yaml_data st') =
                   Some (tracked ∪ {[KStr (str (channel_id channel))]})).
  { subst st'. rewrite (track_channel_enable _ _ _ _ Htracked Hnotin).
    destruct (_fetch_message_history _ _ _ _) as [[[]|e] st1] eqn:Hfetch;
      cbn [snd]; rewrite ?saved_yaml_data;
      rewrite (fetch_tracked_channels _ _ _ _ _ _ Hfetch);
      unfold enabled; cbn [ticks set_tracked_channels set_yaml_data set_ticks
                           yaml_data last_validated];
      by repeat case_match. }
  assert (Hnot : not_tracked (yaml_data st') (channel_id channel) = true).
  { unfold not_tracked. rewrite Hset. by apply bool_decide_eq_true_2. }
  repeat split; try done.
  unfold on_message. case_bool_decide; [done|].
  unfold bind, get. by rewrite Hchannel, Hnot.
Qed.

Lemma C10_enabled_channel_is_still_not_admitted_witness :
  let E := env_at 10 (spaced 5 1) in
  let st := cog_init {| last_validated := ∅; tracked_channels := Some ∅ |}
              true in
  let st' := (track_channel E chan7 true st).2 in
  tracked_channels (yaml_data st') = Some (∅ ∪ {[KStr (str 7)]}) ∧
  (KInt 7 ∉ (∅ ∪ {[KStr (str 7)]} : gset key)) ∧
  not_tracked (yaml_data st') 7 = true ∧
  on_message E (live 7 (msg_at 11 60)) st' = (Ok tt, st').
Proof.
  intros E st.
  apply (C10_enabled_channel_is_still_not_admitted E chan7 st ∅
           (live 7 (msg_at 11 60))).
  - reflexivity.
  - apply not_elem_of_empty.
  - reflexivity.
Defined.

(** * Further properties of the handlers *)

(** ** More on the scan: what it emits and what it keeps *)

Lemma last5_sublist {A} (l : list A) : last5 l `sublist_of` l.
Proof. unfold last5. apply sublist_drop. Qed.

Lemma StronglySorted_sublist_of {A} (R : relation A) (l k : list A) :
  l `sublist_of` k → StronglySorted R k → StronglySorted R l.
Proof.
  induction 1 as [|x l k Hsub IH|x l k Hsub IH]; intros Hk.
  - constructor.
  - apply StronglySorted_inv in Hk as [Hk Hx]. constructor; [by apply IH|].
    apply Forall_forall. intros y Hy. eapply Forall_forall in Hx; [done|].
    by eapply sublist_subseteq.
  - apply StronglySorted_inv in Hk as [Hk _]. by apply IH.
Qed.

Lemma scan_sublist (l : list MessageData) :
  concat (conversation_chunks (scan l)) ++ current_chunk (scan l)
    `sublist_of` l.
Proof.
  induction l as [|m l IH] using rev_ind; [done|].
  rewrite scan_snoc.
  destruct (scan_step_cases (scan l) m)
    as [->|[(f&r&_&_&_&_&->)|(f&r&_&_&_&_&->)]]; simpl.
  - rewrite app_assoc. by apply sublist_app.
  - etrans; [apply sublist_app; [done|apply last5_sublist]|].
    rewrite app_assoc. by apply sublist_app.
  - rewrite concat_app. simpl. rewrite !app_nil_r, app_assoc.
    by apply sublist_app.
Qed.

(** X1: the emitted chunks followed by the current chunk are a
    subsequence of the scanned messages: every message the scan hands on
    or keeps is a scanned message, in scan order, and none is used twice. *)
Theorem X1_scan_keeps_order (l : list MessageData) :
  concat (conversation_chunks (scan l)) ++ current_chunk (scan l)
    `sublist_of` l.
Proof. apply scan_sublist. Qed.

Lemma scan_chunk_length (l chunk : list MessageData) :
  chunk ∈ conversation_chunks (scan l) → (6 ≤ length chunk)%nat.
Proof.
  revert chunk. induction l as [|m l IH] using rev_ind; intros chunk.
  { by intros ?%elem_of_nil. }
  rewrite scan_snoc.
  destruct (scan_step_cases (scan l) m)
    as [->|[(f&r&_&_&_&_&->)|(f&r&_&_&Hin&_&->)]]; simpl; [by auto..|].
  intros [? | ->%list_elem_of_singleton]%elem_of_app; [by auto|].
  apply scan_active_length in Hin. rewrite length_app. simpl. lia.
Qed.

(** X2: a chunk is only finalized one message or more after a start was
    detected on five messages, so every emitted chunk has at least six
    messages. *)
Theorem X2_emitted_chunks_have_six (l chunk : list MessageData) :
  chunk ∈ conversation_chunks (scan l) → (6 ≤ length chunk)%nat.
Proof. apply scan_chunk_length. Qed.

Lemma X2_emitted_chunks_have_six_witness :
  (6 ≤ length (spaced 6 10))%nat.
Proof.
  apply (X2_emitted_chunks_have_six (spaced 6 10) (spaced 6 10)).
  vm_compute. left.
Defined.

(** X3: the chunks emitted for a sorted batch, and the chunk that becomes
    the Buffer, are in non-decreasing timestamp order. *)
Theorem X3_chunks_are_sorted (l chunk : list MessageData) :
  chunk ∈ conversation_chunks (scan (sorted l)) ∨
    chunk = current_chunk (scan (sorted l)) →
  StronglySorted (λ a b, timestamp a ≤ timestamp b) chunk.
Proof.
  intros Hchunk.
  apply (StronglySorted_sublist_of _ _ (sorted l)); [|apply sorted_timestamps].
  etrans; [|apply scan_sublist].
  destruct Hchunk as [Hin| ->]; [|apply sublist_inserts_l; reflexivity].
  apply sublist_inserts_r.
  apply list_elem_of_split in Hin as (cs1 & cs2 & ->).
  rewrite concat_app. simpl.
  apply sublist_inserts_l, sublist_inserts_r. reflexivity.
Qed.

Lemma X3_chunks_are_sorted_witness :
  StronglySorted (λ a b, timestamp a ≤ timestamp b) (spaced 6 10).
Proof.
  apply (X3_chunks_are_sorted (rev (spaced 6 10)) (spaced 6 10)).
  left. vm_compute. left.
Defined.

(** While the scan is active, the recorded candidate is the timestamp of
    the first message of the current chunk. *)
Lemma scan_active_stamp l :
  in_conversation (scan l) = true →
  ∃ first rest, current_chunk (scan l) = first :: rest ∧
    validate_stamp (scan l) = Some (timestamp first).
Proof.
  induction l as [|m l IH] using rev_ind; [done|].
  rewrite scan_snoc.
  destruct (scan_step_cases (scan l) m)
    as [->|[(f&r&_&Hl&_&_&->)|(f&r&_&_&_&_&->)]]; simpl; [| |done].
  - intros (first & rest & -> & ->)%IH. by exists first, (rest ++ [m]).
  - intros _. rewrite Hl. by exists f, r.
Qed.

(** X4: when an evaluation ends inside a conversation, the checkpoint it
    commits is active and its [checked_at] is the timestamp of the first
    message of the Buffer, which holds at least five messages. *)
Theorem X4_active_checkpoint_is_buffer_head
    (E : Env) (guild : Guild) (channel : Channel) (st : State) :
  in_conversation (scan (sorted (fetched E channel st))) = true →
  let st' := (_fetch_message_history E guild channel st).2 in
  ∃ first rest,
    buffer_of guild channel st' = first :: rest ∧
    (4 ≤ length rest)%nat ∧
    last_validated (yaml_data st') !! str (channel_id channel) =
      Some {| checked_at := timestamp first; active := true |}.
Proof.
  intros Hactive st'.
  destruct (_fetch_message_history E guild channel st) as [o st1] eqn:Hrun.
  subst st'. cbn [snd].
  pose proof (scan_active_length _ Hactive) as Hlen.
  destruct (scan_active_stamp _ Hactive) as (first & rest & Hchunk & Hstamp).
  assert (Hbatch : (5 ≤ length (fetched E channel st))%nat).
  { rewrite <- sorted_length.
    etrans; [exact Hlen|]. apply sublist_length.
    etrans; [|apply scan_sublist]. apply sublist_inserts_l. reflexivity. }
  exists first, rest. split; [|split].
  - rewrite (fetch_buffer _ _ _ _ _ _ Hrun).
    destruct (Nat.leb_spec 5 (length (fetched E channel st))); [done|lia].
  - rewrite Hchunk in Hlen. simpl in Hlen. lia.
  - rewrite (fetch_commit _ _ _ _ _ _ _ Hrun Hbatch Hstamp).
    by rewrite Hactive.
Qed.

Lemma X4_active_checkpoint_is_buffer_head_witness :
  let E := env_at 100 (spaced 5 20) in
  let st' :=
    (_fetch_message_history E a_guild chan7 (cog_init empty_data false)).2 in
  ∃ first rest,
    buffer_of a_guild chan7 st' = first :: rest ∧
    (4 ≤ length rest)%nat ∧
    last_validated (yaml_data st') !! str 7 =
      Some {| checked_at := timestamp first; active := true |}.
Proof.
  apply (X4_active_checkpoint_is_buffer_head (env_at 100 (spaced 5 20)) a_guild chan7
           (cog_init empty_data false)).
  vm_compute. reflexivity.
Defined.

(** ** The order of messages is total, so sorting is canonical *)

Lemma lex_Eq c1 c2 : lex c1 c2 = Eq ↔ c1 = Eq ∧ c2 = Eq.
Proof. destruct c1, c2; simpl; split; try done; by intros [? ?]. Qed.

Lemma lex_alt c1 c2 :
  match c1 with Eq => c2 | Lt => Lt | Gt => Gt end = lex c1 c2.
Proof. by destruct c1. Qed.

Lemma lex_CompOpp c1 c2 : CompOpp (lex c1 c2) = lex (CompOpp c1) (CompOpp c2).
Proof. by destruct c1. Qed.

Lemma order_like_refl {A} (cmp : A → A → comparison) a :
  order_like cmp → cmp a a = Eq.
Proof.
  intros (Hanti & _ & _). specialize (Hanti a a). by destruct (cmp a a).
Qed.

(** the lexicographic step shared by pairs, lists and strings *)
Lemma lex_trans {A} (ca : A → A → comparison) (x y z : A) (r1 r2 r3 : comparison) :
  order_like ca →
  (ca x y = Eq → ca y z = Eq → r1 = Lt → r2 = Lt → r3 = Lt) →
  lex (ca x y) r1 = Lt → lex (ca y z) r2 = Lt → lex (ca x z) r3 = Lt.
Proof.
  intros Hca Hr.
  destruct Hca as (Hanti & Heq & Htrans).
  destruct (ca x y) eqn:Hxy; simpl; [|intros _|done].
  - apply Heq in Hxy as ->.
    destruct (ca y z) eqn:Hyz; simpl; [|done..].
    intros. apply Hr; try done.
    all: specialize (Hanti y y); by destruct (ca y y).
  - destruct (ca y z) eqn:Hyz; simpl; [|intros _|done].
    + apply Heq in Hyz as <-. by rewrite Hxy.
    + by rewrite (Htrans _ _ _ Hxy Hyz).
Qed.

Lemma order_like_pair {A B} (ca : A → A → comparison)
    (cb : B → B → comparison) :
  order_like ca → order_like cb →
  order_like (λ x y : A * B, lex (ca x.1 y.1) (cb x.2 y.2)).
Proof.
  intros Ha Hb. split; [|split].
  - intros [a1 b1] [a2 b2]. simpl. rewrite lex_CompOpp.
    destruct Ha as (-> & _), Hb as (-> & _). done.
  - intros [a1 b1] [a2 b2]. simpl. intros [H1 H2]%lex_Eq.
    destruct Ha as (_ & Ha & _), Hb as (_ & Hb & _).
    by rewrite (Ha _ _ H1), (Hb _ _ H2).
  - intros [a1 b1] [a2 b2] [a3 b3]. simpl. apply lex_trans; [done|].
    intros _ _. by apply Hb.
Qed.

Lemma order_like_inj {A B} (f : A → B) (cmp : B → B → comparison) :
  Inj (=) (=) f → order_like cmp → order_like (λ a b, cmp (f a) (f b)).
Proof.
  intros Hinj (Hanti & Heq & Htrans). split; [|split].
  - intros a b. apply Hanti.
  - intros a b H. by apply Hinj, Heq.
  - intros a b c. apply Htrans.
Qed.

Lemma order_like_Z : order_like Z.compare.
Proof.
  split; [|split].
  - intros a b. apply Z.compare_antisym.
  - intros a b. apply Z.compare_eq.
  - intros a b c. rewrite !Z.compare_lt_iff. lia.
Qed.

Lemma order_like_ascii : order_like Ascii.compare.
Proof.
  unfold Ascii.compare. split; [|split].
  - intros a b. apply N.compare_antisym.
  - intros a b H%N.compare_eq.
    rewrite <- (ascii_N_embedding a), <- (ascii_N_embedding b). by rewrite H.
  - intros a b c. rewrite !N.compare_lt_iff. lia.
Qed.

Lemma order_like_string : order_like String.compare.
Proof.
  split; [|split].
  - intros a b. apply String.compare_antisym.
  - intros a b. apply String.compare_eq_iff.
  - intros a. induction a as [|x a IH]; intros [|y b] [|z c]; simpl; try done.
    rewrite !lex_alt. apply lex_trans; [apply order_like_ascii|].
    intros _ _. apply IH.
Qed.

Lemma order_like_list {A} (cmp : A → A → comparison) :
  order_like cmp → order_like (list_compare cmp).
Proof.
  intros Hcmp. split; [|split].
  - intros a. induction a as [|x a IH]; intros [|y b];
      cbn [list_compare]; try done.
    rewrite lex_CompOpp, IH. by destruct Hcmp as (-> & _).
  - intros a. induction a as [|x a IH]; intros [|y b];
      cbn [list_compare]; try done.
    intros [H1 H2]%lex_Eq. destruct Hcmp as (_ & Heq & _).
    by rewrite (Heq _ _ H1), (IH _ H2).
  - intros a. induction a as [|x a IH]; intros [|y b] [|z c];
      cbn [list_compare]; try done.
    apply lex_trans; [done|]. intros _ _. apply IH.
Qed.

Lemma astuple_inj : Inj (=) (=) astuple.
Proof. intros [] [] [= -> -> -> -> ->]. done. Qed.

(** The comparison the dataclass generates is that of a total order. *)
Lemma order_like_MessageData : order_like MessageData_compare.
Proof.
  pose proof (order_like_list String.compare order_like_string) as H5.
  pose proof (order_like_pair String.compare _ order_like_string H5) as H4.
  pose proof (order_like_pair Z.compare _ order_like_Z H4) as H3.
  pose proof (order_like_pair Z.compare _ order_like_Z H3) as H2.
  pose proof (order_like_pair Z.compare _ order_like_Z H2) as H1.
  exact (order_like_inj astuple _ astuple_inj H1).
Qed.

Lemma MessageData_lt_iff a b :
  MessageData_lt a b = true ↔ MessageData_compare a b = Lt.
Proof. unfold MessageData_lt. by destruct (MessageData_compare a b). Qed.

Lemma MessageData_le_iff a b :
  MessageData_le a b ↔ MessageData_compare a b ≠ Gt.
Proof.
  unfold MessageData_le, MessageData_lt.
  destruct order_like_MessageData as (Hanti & _). rewrite (Hanti a b).
  by destruct (MessageData_compare a b).
Qed.

Lemma MessageData_le_trans a b c :
  MessageData_le a b → MessageData_le b c → MessageData_le a c.
Proof.
  rewrite !MessageData_le_iff.
  destruct order_like_MessageData as (Hanti & Heq & Htrans).
  destruct (MessageData_compare a b) eqn:Hab; [|intros _|done].
  - apply Heq in Hab as ->. done.
  - destruct (MessageData_compare b c) eqn:Hbc; [|intros _|done].
    + apply Heq in Hbc as <-. by rewrite Hab.
    + by rewrite (Htrans _ _ _ Hab Hbc).
Qed.

Lemma MessageData_le_antisym a b :
  MessageData_le a b → MessageData_le b a → a = b.
Proof.
  rewrite !MessageData_le_iff.
  destruct order_like_MessageData as (Hanti & Heq & _).
  rewrite (Hanti a b). destruct (MessageData_compare a b) eqn:Hab; try done.
  intros _ _. by apply Heq.
Qed.

Lemma insert_sorted_le x l :
  StronglySorted MessageData_le l →
  StronglySorted MessageData_le (insert_sorted x l).
Proof.
  induction 1 as [|y l Hl IH Hy]; simpl.
  { repeat constructor. }
  destruct (MessageData_lt y x) eqn:Hlt.
  - constructor; [done|].
    apply Forall_forall. intros z Hz.
    rewrite insert_sorted_Permutation in Hz.
    apply elem_of_cons in Hz as [->|Hz]; [|by eapply Forall_forall in Hy].
    apply MessageData_le_iff. apply MessageData_lt_iff in Hlt. by rewrite Hlt.
  - constructor; [by constructor|].
    constructor; [done|].
    eapply Forall_impl; [exact Hy|]. simpl. intros z ?.
    by eapply MessageData_le_trans.
Qed.

Lemma sorted_le l : StronglySorted MessageData_le (sorted l).
Proof.
  induction l as [|x l IH]; simpl; [constructor|]. by apply insert_sorted_le.
Qed.

Lemma sorted_Permutation_eq (l1 l2 : list MessageData) :
  l1 ≡ₚ l2 → sorted l1 = sorted l2.
Proof.
  intros Hperm.
  apply (StronglySorted_unique_strong MessageData_le).
  - intros x1 x2 _ _. apply MessageData_le_antisym.
  - apply sorted_le.
  - apply sorted_le.
  - by rewrite !sorted_Permutation.
Qed.

(** X5: sorting is canonical: two batches with the same messages, in
    whatever order the feed delivered them, sort to the same list, and so
    are scanned into the same chunks, Buffer, flag and candidate. *)
Theorem X5_sorting_is_canonical (l1 l2 : list MessageData) :
  l1 ≡ₚ l2 → sorted l1 = sorted l2 ∧ scan (sorted l1) = scan (sorted l2).
Proof. intros Hperm. by rewrite (sorted_Permutation_eq l1 l2 Hperm). Qed.

Lemma X5_sorting_is_canonical_witness :
  sorted (rev (spaced 6 10)) = sorted (spaced 6 10) ∧
  scan (sorted (rev (spaced 6 10))) = scan (sorted (spaced 6 10)).
Proof.
  apply (X5_sorting_is_canonical (rev (spaced 6 10)) (spaced 6 10)).
  symmetry. apply Permutation_rev.
Defined.

(** ** More on the summarizer *)


(** Cutting a string into characters loses nothing. *)
Lemma concat_cons (c : string) (l : list string) :
  String.concat EmptyString (c :: l) = c +:+ String.concat EmptyString l.
Proof.
  destruct l as [|c' l]; [|done]. simpl.
  induction c as [|a c IH]; [done|].
  change (String a c = String a (c +:+ EmptyString)). congruence.
Qed.

Lemma chars_concat (s : string) : String.concat EmptyString (chars s) = s.
Proof.
  assert (H : ∀ n s, (String.length s ≤ n)%nat →
                String.concat EmptyString (chars s) = s);
    [|by apply (H (String.length s))].
  clear s. induction n as [|n IH]; intros s Hlen.
  { destruct s; [done|]. cbn [String.length] in Hlen. lia. }
  destruct s as [|a s1]; [done|]. cbn [String.length] in Hlen.
  assert (H1 : String.concat EmptyString
                 (String a EmptyString :: chars s1) = String a s1).
  { rewrite concat_cons, IH by lia. done. }
  cbn [chars]. destruct (utf8_width a) as [|[|[|[|[|w]]]]]; try exact H1.
  - destruct s1 as [|b s2]; [exact H1|]. cbn [String.length] in Hlen.
    rewrite concat_cons, IH by lia. done.
  - destruct s1 as [|b [|c s3]]; try exact H1. cbn [String.length] in Hlen.
    rewrite concat_cons, IH by lia. done.
  - destruct s1 as [|b [|c [|d s4]]]; try exact H1.
    cbn [String.length] in Hlen.
    rewrite concat_cons, IH by lia. done.
Qed.

(** A string without white space at either end is left as it is, and
    white space beyond ASCII is stripped like the blank; white space
    inside the text and characters that merely share a byte with a space
    are kept. *)
Lemma strip_examples :
  strip " a summary " = "a summary" ∧
  strip (no_break_space +:+ " a summary" +:+ em_space
           +:+ ideographic_space) = "a summary" ∧
  strip (a_grave +:+ em_space +:+ "b" +:+ zero_width_space) =
    a_grave +:+ em_space +:+ "b" +:+ zero_width_space ∧
  strip (ideographic_space +:+ " ") = EmptyString.
Proof. vm_compute. repeat split; reflexivity. Qed.



(** X7: the summarizer sorts what it is given, so its request, its result
    and the line it writes do not depend on the order of the messages
    passed to it. *)
Theorem X7_summary_ignores_order
    (E : Env) (channel_name server_name : string)
    (l1 l2 : list MessageData) (st : State) :
  l1 ≡ₚ l2 →
  summarize_messages E channel_name server_name l1 st =
    summarize_messages E channel_name server_name l2 st.
Proof.
  intros Hperm. unfold summarize_messages.
  pose proof (sorted_Permutation_eq l1 l2 Hperm) as Hsorted.
  destruct l1 as [|m1 l1], l2 as [|m2 l2]; [done| | |].
  - by apply Permutation_nil_cons in Hperm.
  - symmetry in Hperm. by apply Permutation_nil_cons in Hperm.
  - by rewrite Hsorted.
Qed.

Lemma X7_summary_ignores_order_witness :
  summarize_messages (env_at 0 []) "general" "srv" (rev (spaced 6 10))
    (cog_init empty_data false) =
  summarize_messages (env_at 0 []) "general" "srv" (spaced 6 10)
    (cog_init empty_data false).
Proof.
  apply (X7_summary_ignores_order (env_at 0 []) "general" "srv"
           (rev (spaced 6 10)) (spaced 6 10) (cog_init empty_data false)).
  symmetry. apply Permutation_rev.
Defined.

(** ** More on the windowing evaluation *)

Lemma mc_inner_set_eq g inner mc : mc_inner g (od_set g inner mc) = inner.
Proof. unfold mc_inner. by rewrite od_get_set_eq. Qed.

Lemma mc_inner_set_ne g g' inner mc :
  g ≠ g' → mc_inner g' (od_set g inner mc) = mc_inner g' mc.
Proof. intros Hne. unfold mc_inner. by rewrite od_get_set_ne. Qed.

Lemma mc_buffer_store_ne g c g' c' buf mc :
  (g', c') ≠ (g, c) →
  mc_buffer g' c' (mc_store g c buf mc) = mc_buffer g' c' mc.
Proof.
  intros Hne. unfold mc_buffer, mc_store.
  destruct (decide (g = g')) as [<-|Hg].
  - rewrite mc_inner_set_eq. rewrite od_get_set_ne by congruence. done.
  - by rewrite mc_inner_set_ne.
Qed.

Lemma windowed_summaries E guild channel st :
  summaries (windowed E guild channel st) = summaries st ∧
  never_awaited (windowed E guild channel st) = never_awaited st.
Proof.
  unfold windowed. destruct (Nat.leb 5 _); [|done].
  destruct (validate_stamp _); [|done]. by destruct (yaml_writable E).
Qed.

Lemma windowed_other_buffers E guild channel st g c :
  (g, c) ≠ (KInt (guild_id guild), channel_id channel) →
  mc_buffer g c (message_collection (windowed E guild channel st)) =
    mc_buffer g c (message_collection st).
Proof.
  intros Hne. unfold windowed.
  destruct (Nat.leb 5 _); cbn [message_collection set_message_collection];
    [|by apply mc_buffer_store_ne].
  rewrite mc_buffer_store_ne by done.
  destruct (validate_stamp _); [destruct (yaml_writable E)|];
    cbn [message_collection set_message_collection set_last_validated
         set_yaml_data set_yaml_file set_ticks];
    by apply mc_buffer_store_ne.
Qed.

(** X8: an evaluation of one channel leaves every other channel alone:
    the tracked set and the dropped coroutines are as before, only the
    checkpoint under this channel's key can change, and only the Buffer of
    this guild and channel can change. *)
Theorem X8_evaluation_touches_one_channel
    (E : Env) (guild : Guild) (channel : Channel) (st : State) :
  let st' := (_fetch_message_history E guild channel st).2 in
  tracked_channels (yaml_data st') = tracked_channels (yaml_data st) ∧
  never_awaited st' = never_awaited st ∧
  (∀ k, k ≠ str (channel_id channel) →
        last_validated (yaml_data st') !! k =
          last_validated (yaml_data st) !! k) ∧
  (∀ g c, (g, c) ≠ (KInt (guild_id guild), channel_id channel) →
          mc_buffer g c (message_collection st') =
            mc_buffer g c (message_collection st)).
Proof.
  intros st'.
  destruct (_fetch_message_history E guild channel st) as [o st1] eqn:Hrun.
  subst st'. cbn [snd].
  pose proof (fetch_same_cog _ _ _ _ _ _ Hrun) as (Hd & Hmc & _ & Hna & _).
  split; [by eapply fetch_tracked_channels|].
  split; [rewrite Hna; apply windowed_summaries|].
  split.
  - intros k Hk. rewrite (fetch_last_validated _ _ _ _ _ _ Hrun).
    destruct (Nat.leb 5 _); [|done]. unfold committed.
    destruct (validate_stamp _); [|done]. by rewrite lookup_insert_ne.
  - intros g c Hne. rewrite Hmc. by apply windowed_other_buffers.
Qed.

Lemma summarize_backend_down E cn sn ms st :
  (∀ r, chat_completions E r = None) →
  summarize_messages E cn sn ms st = (Ok tt, st).
Proof.
  intros Hdown. unfold summarize_messages. destruct ms; [done|].
  by rewrite Hdown.
Qed.

Lemma for_each_skip {A} (body : A → M unit) l st :
  (∀ x, x ∈ l → body x st = (Ok tt, st)) →
  for_each l body st = (Ok tt, st).
Proof.
  induction l as [|x l IH]; intros Hbody; simpl; [done|].
  unfold bind. rewrite Hbody by left. apply IH.
  intros y Hy. apply Hbody. by right.
Qed.

(** X9: when the backend call fails for every request, an evaluation still
    returns normally, with the checkpoint committed and the Buffer
    replaced as usual, and writes no summary: the chunks it finalized are
    dropped. *)
Theorem X9_backend_failure_drops_chunks
    (E : Env) (guild : Guild) (channel : Channel) (st : State) :
  (∀ r, chat_completions E r = None) →
  let '(o, st') := _fetch_message_history E guild channel st in
  o = Ok tt ∧
  summaries st' = summaries st ∧
  last_validated (yaml_data st') =
    (if (5 <=? length (fetched E channel st))%nat
     then committed (scan (sorted (fetched E channel st)))
            (channel_id channel) (last_validated (yaml_data st))
     else last_validated (yaml_data st)) ∧
  buffer_of guild channel st' =
    (if (5 <=? length (fetched E channel st))%nat
     then current_chunk (scan (sorted (fetched E channel st)))
     else buffer_of guild channel st ++ fetched E channel st).
Proof.
  intros Hdown.
  assert (Hrun : _fetch_message_history E guild channel st =
                   (Ok tt, windowed E guild channel st)).
  { rewrite fetch_decompose. destruct (Nat.leb 5 _); [|done].
    apply for_each_skip. intros chunk _. by apply summarize_backend_down. }
  rewrite Hrun. split; [done|]. split; [apply windowed_summaries|].
  split; [apply windowed_last_validated|apply windowed_buffer].
Qed.

Lemma X9_backend_failure_drops_chunks_witness :
  let E := env_answering 52 (spaced 6 10) None in
  let st := cog_init empty_data false in
  let '(o, st') := _fetch_message_history E a_guild chan7 st in
  o = Ok tt ∧
  summaries st' = summaries st ∧
  last_validated (yaml_data st') =
    (if (5 <=? length (fetched E chan7 st))%nat
     then committed (scan (sorted (fetched E chan7 st)))
            (channel_id chan7) (last_validated (yaml_data st))
     else last_validated (yaml_data st)) ∧
  buffer_of a_guild chan7 st' =
    (if (5 <=? length (fetched E chan7 st))%nat
     then current_chunk (scan (sorted (fetched E chan7 st)))
     else buffer_of a_guild chan7 st ++ fetched E chan7 st).
Proof.
  apply (X9_backend_failure_drops_chunks
           (env_answering 52 (spaced 6 10) None) a_guild chan7
           (cog_init empty_data false)).
  reflexivity.
Defined.

Lemma summarize_no_choice E cn sn ms st :
  (∀ r, chat_completions E r = Some []) → ms ≠ [] →
  summarize_messages E cn sn ms st = (Raise IndexError, st).
Proof.
  intros Hnone Hne. unfold summarize_messages. destruct ms; [done|].
  by rewrite Hnone.
Qed.

(** X10: a summarizer exception escapes the evaluation after the state
    was updated: when the backend answers without a choice and the scan
    finalized a chunk, the evaluation raises [IndexError] on the first
    chunk, no summary is written, and yet the checkpoint is committed and
    the Buffer replaced, so the finalized chunks are not seen again. *)
Theorem X10_summarizer_exception_after_commit
    (E : Env) (guild : Guild) (channel : Channel) (st : State) :
  (∀ r, chat_completions E r = Some []) →
  conversation_chunks (scan (sorted (fetched E channel st))) ≠ [] →
  let r := scan (sorted (fetched E channel st)) in
  let '(o, st') := _fetch_message_history E guild channel st in
  o = Raise IndexError ∧
  summaries st' = summaries st ∧
  (∃ stamp, validate_stamp r = Some stamp ∧
     last_validated (yaml_data st') !! str (channel_id channel) =
       Some {| checked_at := stamp; active := in_conversation r |}) ∧
  buffer_of guild channel st' = current_chunk r.
Proof.
  intros Hnone Hchunks r.
  destruct (conversation_chunks r) as [|chunk chunks] eqn:Hcs; [done|].
  assert (Hsix : (6 ≤ length chunk)%nat).
  { apply (scan_chunk_length (sorted (fetched E channel st))).
    fold r. rewrite Hcs. left. }
  assert (Hlen : (5 ≤ length (fetched E channel st))%nat).
  { rewrite <- sorted_length.
    assert (chunk `sublist_of` sorted (fetched E channel st)) as Hsub.
    { etrans; [|apply scan_sublist]. fold r. rewrite Hcs. simpl.
      rewrite <- app_assoc. apply sublist_inserts_r. reflexivity. }
    apply sublist_length in Hsub. lia. }
  assert (Hrun : _fetch_message_history E guild channel st =
                   (Raise IndexError, windowed E guild channel st)).
  { rewrite fetch_decompose.
    destruct (Nat.leb_spec 5 (length (fetched E channel st))); [|lia].
    fold r. rewrite Hcs. simpl. unfold bind.
    rewrite summarize_no_choice; [done..|].
    intros ->. simpl in Hsix. lia. }
  rewrite Hrun. split; [done|]. split; [apply windowed_summaries|].
  destruct (validate_stamp r) as [stamp|] eqn:Hstamp.
  - split.
    + exists stamp. split; [done|].
      rewrite windowed_last_validated.
      destruct (Nat.leb_spec 5 (length (fetched E channel st))); [|lia].
      unfold committed. fold r. rewrite Hstamp. apply lookup_insert_eq.
    + rewrite windowed_buffer.
      by destruct (Nat.leb_spec 5 (length (fetched E channel st))); [|lia].
  - apply scan_no_candidate in Hstamp as (Hnil & _). fold r in Hnil.
    by rewrite Hcs in Hnil.
Qed.

Lemma X10_summarizer_exception_after_commit_witness :
  let E := env_answering 52 (spaced 6 10) (Some []) in
  let st := cog_init empty_data false in
  let r := scan (sorted (fetched E chan7 st)) in
  let '(o, st') := _fetch_message_history E a_guild chan7 st in
  o = Raise IndexError ∧
  summaries st' = summaries st ∧
  (∃ stamp, validate_stamp r = Some stamp ∧
     last_validated (yaml_data st') !! str (channel_id chan7) =
       Some {| checked_at := stamp; active := in_conversation r |}) ∧
  buffer_of a_guild chan7 st' = current_chunk r.
Proof.
  apply (X10_summarizer_exception_after_commit
           (env_answering 52 (spaced 6 10) (Some [])) a_guild chan7
           (cog_init empty_data false)).
  - reflexivity.
  - vm_compute. discriminate.
Defined.

(** ** More on the tracker *)

Lemma enabled_tracked_channels E channel tracked st :
  tracked_channels (yaml_data (enabled E channel tracked st)) =
    Some (tracked ∪ {[KStr (str (channel_id channel))]}).
Proof.
  unfold enabled.
  cbn [ticks set_tracked_channels set_yaml_data set_ticks yaml_data
       last_validated].
  by repeat case_match.
Qed.

Lemma enabled_checkpoint E channel tracked st :
  ∃ mid,
    last_validated (yaml_data (enabled E channel tracked st))
      !! str (channel_id channel) = Some mid ∧
    clock E (ticks st) - hours 3 ≤ checked_at mid.
Proof.
  unfold enabled.
  cbn [ticks set_tracked_channels set_yaml_data set_ticks yaml_data
       last_validated].
  destruct (last_validated (yaml_data st) !! str (channel_id channel))
    as [status|] eqn:Hstatus.
  - destruct (Z.ltb_spec (checked_at status) (clock E (ticks st) - hours 3));
      cbn.
    + rewrite lookup_insert_eq. eexists. split; [done|]. cbn. lia.
    + exists status. split; [done|lia].
  - cbn. rewrite lookup_insert_eq. eexists. split; [done|]. cbn. lia.
Qed.

Lemma track_channel_enable_state E channel st tracked :
  tracked_channels (yaml_data st) = Some tracked →
  KInt (channel_id channel) ∉ tracked →
  ∃ o st1,
    _fetch_message_history E (channel_guild channel) channel
      (enabled E channel tracked st) = (o, st1) ∧
    yaml_data (track_channel E channel true st).2 = yaml_data st1 ∧
    message_collection (track_channel E channel true st).2 =
      message_collection st1.
Proof.
  intros Htracked Hnotin.
  rewrite (track_channel_enable _ _ _ _ Htracked Hnotin).
  destruct (_fetch_message_history _ _ _ _) as [[[]|e] st1] eqn:Hfetch;
    eexists _, st1; (split; [done|]); cbn [snd];
    by rewrite ?saved_yaml_data, ?saved_message_collection.
Qed.

(** X11: enabling tracking bounds the lookback: when the feed returns
    only messages after the timestamp it is asked for, a channel that was
    not admitted before has, after [track_channel channel True], a
    checkpoint whose [checked_at] is no older than three hours before the
    call, whatever checkpoint it had. *)
Theorem X11_enable_bounds_lookback
    (E : Env) (channel : Channel) (st : State) (tracked : gset key) :
  (∀ c after m, m ∈ history E c after → after < timestamp m) →
  tracked_channels (yaml_data st) = Some tracked →
  KInt (channel_id channel) ∉ tracked →
  ∃ status,
    last_validated (yaml_data (track_channel E channel true st).2)
      !! str (channel_id channel) = Some status ∧
    clock E (ticks st) - hours 3 ≤ checked_at status.
Proof.
  intros Hfeed Htracked Hnotin.
  destruct (track_channel_enable_state E channel st tracked Htracked Hnotin)
    as (o & st1 & Hfetch & -> & _).
  destruct (enabled_checkpoint E channel tracked st) as (mid & Hmid & Hle).
  destruct (fetch_checked_at_mono _ _ _ _ _ _ _ _ Hfeed Hfetch Hmid)
    as (new & Hnew & Hle').
  exists new. split; [done|lia].
Qed.

Lemma X11_enable_bounds_lookback_witness :
  let E := env_at 500 (spaced 5 1) in
  let st :=
    cog_init {| last_validated :=
                  {[ str 7 := {| checked_at := 0; active := true |} ]};
                tracked_channels := Some ∅ |} true in
  ∃ status,
    last_validated (yaml_data (track_channel E chan7 true st).2)
      !! str (channel_id chan7) = Some status ∧
    clock E (ticks st) - hours 3 ≤ checked_at status.
Proof.
  intros E st.
  apply (X11_enable_bounds_lookback E chan7 st ∅).
  - intros c after m. apply env_with_feed_after.
  - reflexivity.
  - apply not_elem_of_empty.
Defined.

(** X12: a channel enabled with [track_channel channel True] cannot be
    disabled again: the call stored the string form of the id, the
    membership test looks for the integer, so [track_channel channel
    False] answers [False] and changes nothing, and the string id stays in
    the tracked set. *)
Theorem X12_enabled_channel_cannot_be_disabled
    (E : Env) (channel : Channel) (st : State) (tracked : gset key) :
  tracked_channels (yaml_data st) = Some tracked →
  KInt (channel_id channel) ∉ tracked →
  let st' := (track_channel E channel true st).2 in
  track_channel E channel false st' = (Ok false, st') ∧
  ∃ tracked', tracked_channels (yaml_data st') = Some tracked' ∧
              KStr (str (channel_id channel)) ∈ tracked'.
Proof.
  intros Htracked Hnotin st'.
  assert (Hset : tracked_channels (yaml_data st') =
                   Some (tracked ∪ {[KStr (str (channel_id channel))]})).
  { subst st'.
    destruct (track_channel_enable_state E channel st tracked Htracked Hnotin)
      as (o & st1 & Hfetch & -> & _).
    rewrite (fetch_tracked_channels _ _ _ _ _ _ Hfetch).
    apply enabled_tracked_channels. }
  split.
  - unfold track_channel, bind, get. rewrite Hset.
    rewrite (bool_decide_eq_false_2 (KInt _ ∈ _)).
    + by rewrite bool_decide_eq_true_2.
    + rewrite not_elem_of_union, not_elem_of_singleton. done.
  - eexists. split; [done|]. apply elem_of_union. right.
    by apply elem_of_singleton.
Qed.

Lemma X12_enabled_channel_cannot_be_disabled_witness :
  let E := env_at 10 (spaced 5 1) in
  let st := cog_init {| last_validated := ∅; tracked_channels := Some ∅ |}
              true in
  let st' := (track_channel E chan7 true st).2 in
  track_channel E chan7 false st' = (Ok false, st') ∧
  ∃ tracked', tracked_channels (yaml_data st') = Some tracked' ∧
              KStr (str (channel_id chan7)) ∈ tracked'.
Proof.
  intros E st.
  apply (X12_enabled_channel_cannot_be_disabled E chan7 st ∅).
  - reflexivity.
  - apply not_elem_of_empty.
Defined.

Lemma od_del_None {K V} `{EqDecision K} (k : K) (d : list (K * V)) :
  od_get k d = None → od_del k d = None.
Proof.
  induction d as [|[k' v] d IH]; simpl; [done|].
  case_decide; [done|]. intros H1. by rewrite IH.
Qed.

(** X13: disabling a channel that is tracked by its integer id but has no
    Buffer raises [KeyError] half-way: the id has already been removed
    from the tracked set in memory, the checkpoints are untouched, and the
    YAML file is not written. *)
Theorem X13_disable_without_buffer_raises
    (E : Env) (channel : Channel) (st : State) (tracked : gset key) :
  tracked_channels (yaml_data st) = Some tracked →
  KInt (channel_id channel) ∈ tracked →
  od_get (channel_id channel)
    (mc_inner (KInt (guild_id (channel_guild channel)))
       (message_collection st)) = None →
  ∃ st', track_channel E channel false st = (Raise KeyError, st') ∧
    tracked_channels (yaml_data st') =
      Some (tracked ∖ {[KInt (channel_id channel)]}) ∧
    last_validated (yaml_data st') = last_validated (yaml_data st) ∧
    yaml_file st' = yaml_file st.
Proof.
  intros Htracked Hin Hnone.
  unfold track_channel, bind at 1, get. rewrite Htracked.
  rewrite (bool_decide_eq_true_2 _ Hin).
  rewrite bool_decide_eq_false_2 by done.
  unfold bind, modify, save_yaml, ret, get, raise.
  cbn [message_collection set_tracked_channels set_yaml_data].
  rewrite (od_del_None _ _ Hnone).
  eexists. split; [reflexivity|]. done.
Qed.

Lemma X13_disable_without_buffer_raises_witness :
  let st := cog_init {| last_validated := ∅;
                        tracked_channels := Some {[ KInt 7 ]} |} true in
  ∃ st', track_channel (env_at 10 []) chan7 false st = (Raise KeyError, st') ∧
    tracked_channels (yaml_data st') = Some ({[ KInt 7 ]} ∖ {[KInt 7]}) ∧
    last_validated (yaml_data st') = last_validated (yaml_data st) ∧
    yaml_file st' = yaml_file st.
Proof.
  intros st.
  apply (X13_disable_without_buffer_raises (env_at 10 []) chan7 st
           {[ KInt 7 ]}).
  - reflexivity.
  - apply elem_of_singleton. reflexivity.
  - reflexivity.
Defined.

(** ** Live messages, start-up and guild events *)

Lemma str_inj : Inj (=) (=) str.
Proof. unfold str. apply _. Qed.

(** X14: [on_message] never raises and never touches the checkpoints, the
    tracked set or the summaries.  A message that is not the bot's own and
    whose channel passes the admission test is appended at the end of the
    Buffer of its guild (["DM"] without a guild) and channel; any other
    message changes no Buffer; the Buffers of other channels are never
    changed. *)
Theorem X14_on_message_appends_to_one_buffer (E : Env) (message : Message)
    (st : State) :
  let g := match message_guild message with
           | Some g => KInt g
           | None => KStr "DM"
           end in
  let c := message_channel message in
  let admitted :=
    negb (bool_decide (author (message_data message) = bot_user E)) &&
    negb (not_tracked (yaml_data st) c) in
  let '(o, st') := on_message E message st in
  o = Ok tt ∧
  yaml_data st' = yaml_data st ∧
  summaries st' = summaries st ∧
  mc_buffer g c (message_collection st') =
    (if admitted
     then mc_buffer g c (message_collection st) ++ [message_data message]
     else mc_buffer g c (message_collection st)) ∧
  ∀ g' c', (g', c') ≠ (g, c) →
    mc_buffer g' c' (message_collection st') =
      mc_buffer g' c' (message_collection st).
Proof.
  intros g c admitted. subst c admitted. unfold on_message.
  case_bool_decide.
  { unfold ret. cbn [negb andb]. repeat (split; [reflexivity|]).
    intros; reflexivity. }
  unfold bind, get.
  destruct (not_tracked (yaml_data st) (message_channel message)).
  { unfold ret. cbn [negb andb]. repeat (split; [reflexivity|]).
    intros; reflexivity. }
  unfold modify. cbn [negb andb message_collection set_message_collection
                      yaml_data summaries].
  fold g. split; [done|]. split; [done|]. split; [done|].
  split; [apply mc_buffer_store|].
  intros g' c' Hne. by apply mc_buffer_store_ne.
Qed.

(** X15: start-up and guild-join only evaluate admitted channels: when the
    integer id of none of the channels is in the tracked set (for
    instance when every channel was enabled with [track_channel], which
    stores string ids), [on_ready] and [on_guild_join] return without
    fetching anything and leave the state as it was. *)
Theorem X15_unadmitted_channels_are_not_fetched (E : Env) (st : State)
    (guild : Guild) (text_channels : list Channel) :
  (∀ g chans channel, (g, chans) ∈ guilds E → channel ∈ chans →
     not_tracked (yaml_data st) (channel_id channel) = true) →
  (∀ channel, channel ∈ text_channels →
     not_tracked (yaml_data st) (channel_id channel) = true) →
  on_ready E st = (Ok tt, st) ∧
  on_guild_join E guild text_channels st = (Ok tt, st).
Proof.
  intros Hguilds Hjoin. split.
  - unfold on_ready. apply for_each_skip. intros [g chans] Hg.
    apply for_each_skip. intros channel Hc. unfold bind, get.
    by rewrite (Hguilds g chans channel Hg Hc).
  - unfold on_guild_join. apply for_each_skip. intros channel Hc.
    unfold bind, get. by rewrite (Hjoin channel Hc).
Qed.

Lemma X15_unadmitted_channels_are_not_fetched_witness :
  let E := env_at 10 (spaced 5 1) in
  let st :=
    cog_init {| last_validated := ∅;
                tracked_channels := Some {[ KStr (str 7); KStr (str 8) ]} |}
      true in
  on_ready E st = (Ok tt, st) ∧
  on_guild_join E a_guild [chan7; chan8] st = (Ok tt, st).
Proof.
  intros E st.
  apply (X15_unadmitted_channels_are_not_fetched E st a_guild [chan7; chan8]).
  - intros g chans channel Hg Hc.
    apply list_elem_of_singleton in Hg. injection Hg as -> ->.
    apply elem_of_cons in Hc as [->|Hc];
      [|apply list_elem_of_singleton in Hc as ->]; vm_compute; reflexivity.
  - intros channel Hc.
    apply elem_of_cons in Hc as [->|Hc];
      [|apply list_elem_of_singleton in Hc as ->]; vm_compute; reflexivity.
Defined.

Lemma od_get_del_ne {K V} `{EqDecision K} (k k' : K) (d d' : list (K * V)) :
  k ≠ k' → od_del k d = Some d' → od_get k' d' = od_get k' d.
Proof.
  intros Hne. revert d'.
  induction d as [|[k0 v] d IH]; intros d'; simpl; [done|].
  destruct (decide (k = k0)) as [<-|Hk0].
  - intros [= <-]. by rewrite decide_False by done.
  - destruct (od_del k d) as [d0|] eqn:Hdel; [|done].
    intros [= <-]. simpl. case_decide; [done|]. by apply IH.
Qed.

(** X16: outside whitelist mode, removing a guild deletes the guild's entry
    of the message collection and nothing else: the Buffers of the other
    guilds, the checkpoints and the YAML file are as before.  A guild
    without an entry is left alone in either mode. *)
Theorem X16_guild_remove_in_open_mode (E : Env) (guild : Guild)
    (st : State) :
  let g := KInt (guild_id guild) in
  (od_get g (message_collection st) = None →
   on_guild_remove E guild st = (Ok tt, st)) ∧
  (tracked_channels (yaml_data st) = None →
   NoDup (od_keys (message_collection st)) →
   is_Some (od_get g (message_collection st)) →
   ∃ st', on_guild_remove E guild st = (Ok tt, st') ∧
     od_get g (message_collection st') = None ∧
     (∀ g', g' ≠ g → od_get g' (message_collection st') =
                      od_get g' (message_collection st)) ∧
     yaml_data st' = yaml_data st ∧
     yaml_file st' = yaml_file st).
Proof.
  intros g. split.
  - intros Hnone. unfold on_guild_remove, bind, get. fold g.
    by rewrite Hnone.
  - intros Hopen Hnodup [inner Hinner].
    unfold on_guild_remove, bind, get. fold g. rewrite Hinner, Hopen.
    unfold ret, modify, raise.
    destruct (od_del_is_Some g (message_collection st)) as [mc Hdel];
      [by eexists|].
    rewrite Hdel. eexists. split; [reflexivity|].
    cbn [message_collection set_message_collection yaml_data yaml_file].
    split; [by eapply od_get_del|]. split; [|done].
    intros g' Hne. by eapply od_get_del_ne.
Qed.

Lemma tracked_remove_all_ok keys :
  ∀ (tracked : gset key) st,
    tracked_channels (yaml_data st) = Some tracked →
    NoDup keys →
    (∀ c, c ∈ keys → KStr (str c) ∈ tracked) →
    ∃ st',
      for_each keys (λ c, tracked_remove (KStr (str c))) st = (Ok tt, st') ∧
      tracked_channels (yaml_data st') =
        Some (tracked ∖ list_to_set ((λ c, KStr (str c)) <$> keys)) ∧
      last_validated (yaml_data st') = last_validated (yaml_data st) ∧
      message_collection st' = message_collection st ∧
      yaml_file st' = yaml_file st.
Proof.
  induction keys as [|c keys IH]; intros tracked st Htracked Hnodup Hall.
  { exists st. simpl. split; [done|]. split; [|done].
    rewrite Htracked. f_equal. set_solver. }
  apply NoDup_cons in Hnodup as [Hc Hnodup].
  simpl. unfold bind at 1. unfold tracked_remove at 1. unfold bind, get.
  rewrite Htracked. rewrite bool_decide_eq_true_2 by (apply Hall; left).
  unfold modify.
  destruct (IH (tracked ∖ {[KStr (str c)]})
              (set_tracked_channels
                 (Some (tracked ∖ {[KStr (str c)]})) st))
    as (st' & Hrun & Hset & Hlv & Hmc & Hfile); [done|done| |].
  { intros c' Hc'. apply elem_of_difference. split; [apply Hall; by right|].
    rewrite not_elem_of_singleton. intros [= Heq]. apply str_inj in Heq.
    by subst. }
  exists st'. split; [exact Hrun|]. split; [|done].
  rewrite Hset. f_equal. set_solver.
Qed.

Lemma tracked_remove_all_fails keys :
  ∀ (tracked : gset key) st,
    tracked_channels (yaml_data st) = Some tracked →
    (∃ c, c ∈ keys ∧ KStr (str c) ∉ tracked) →
    ∃ st',
      for_each keys (λ c, tracked_remove (KStr (str c))) st
        = (Raise KeyError, st') ∧
      message_collection st' = message_collection st ∧
      yaml_file st' = yaml_file st.
Proof.
  induction keys as [|c keys IH]; intros tracked st Htracked (c0 & Hc0 & Hout).
  { by apply elem_of_nil in Hc0. }
  simpl. unfold bind at 1. unfold tracked_remove at 1. unfold bind, get.
  rewrite Htracked. case_bool_decide as Hin; [|by exists st].
  unfold modify.
  destruct (IH (tracked ∖ {[KStr (str c)]})
              (set_tracked_channels
                 (Some (tracked ∖ {[KStr (str c)]})) st))
    as (st' & Hrun & Hmc & Hfile); [done| |by exists st'].
  exists c0. split; [|set_solver].
  apply elem_of_cons in Hc0 as [->|?]; done.
Qed.

(** X17: in whitelist mode, removing a guild removes the string form of
    the id of every channel that has a Buffer in the guild, and it
    succeeds only if all of them are members: then the string ids are
    gone from the tracked set and the guild's entry is deleted.  If one is
    missing (as for a channel admitted by its integer id), the handler
    raises [KeyError] before anything is deleted: the message collection
    and the YAML file are as before. *)
Theorem X17_guild_remove_in_whitelist_mode (E : Env) (guild : Guild)
    (st : State) (tracked : gset key) (inner : list (Z * list MessageData)) :
  let g := KInt (guild_id guild) in
  tracked_channels (yaml_data st) = Some tracked →
  od_get g (message_collection st) = Some inner →
  NoDup (od_keys (message_collection st)) →
  NoDup (od_keys inner) →
  ((∀ c, c ∈ od_keys inner → KStr (str c) ∈ tracked) →
   ∃ st', on_guild_remove E guild st = (Ok tt, st') ∧
     tracked_channels (yaml_data st') =
       Some (tracked ∖ list_to_set ((λ c, KStr (str c)) <$> od_keys inner)) ∧
     od_get g (message_collection st') = None ∧
     last_validated (yaml_data st') = last_validated (yaml_data st)) ∧
  ((∃ c, c ∈ od_keys inner ∧ KStr (str c) ∉ tracked) →
   ∃ st', on_guild_remove E guild st = (Raise KeyError, st') ∧
     message_collection st' = message_collection st ∧
     yaml_file st' = yaml_file st).
Proof.
  intros g Htracked Hinner Hnodup Hinner_nodup. split.
  - intros Hall.
    destruct (tracked_remove_all_ok (od_keys inner) tracked st
                Htracked Hinner_nodup Hall)
      as (st1 & Hrun & Hset & Hlv & Hmc & Hfile).
    unfold on_guild_remove, bind at 1, get. fold g. rewrite Hinner, Htracked.
    unfold bind at 1. unfold bind at 1. rewrite Hrun.
    unfold save_yaml, modify, bind, get, raise.
    destruct (od_del_is_Some g (message_collection st)) as [mc Hdel];
      [by eexists|].
    destruct (yaml_writable E);
      cbn [message_collection set_yaml_file]; rewrite Hmc, Hdel;
      (eexists; split; [reflexivity|]);
      cbn [yaml_data message_collection set_message_collection set_yaml_file];
      (split; [done|]); (split; [by eapply od_get_del|done]).
  - intros Hmissing.
    destruct (tracked_remove_all_fails (od_keys inner) tracked st
                Htracked Hmissing) as (st1 & Hrun & Hmc & Hfile).
    unfold on_guild_remove, bind at 1, get. fold g. rewrite Hinner, Htracked.
    unfold bind at 1. unfold bind at 1. rewrite Hrun.
    by exists st1.
Qed.

Lemma X17_guild_remove_in_whitelist_mode_witness :
  let E := env_at 10 [] in
  let st :=
    (on_message E (live 7 (msg_at 1 50))
       (cog_init {| last_validated := ∅;
                    tracked_channels := Some {[ KInt 7 ]} |} true)).2 in
  let tracked : gset key := {[ KInt 7 ]} in
  let inner := [(7, [msg_at 1 50])] in
  let g := KInt (guild_id a_guild) in
  ((∀ c, c ∈ od_keys inner → KStr (str c) ∈ tracked) →
   ∃ st', on_guild_remove E a_guild st = (Ok tt, st') ∧
     tracked_channels (yaml_data st') =
       Some (tracked ∖ list_to_set ((λ c, KStr (str c)) <$> od_keys inner)) ∧
     od_get g (message_collection st') = None ∧
     last_validated (yaml_data st') = last_validated (yaml_data st)) ∧
  ((∃ c, c ∈ od_keys inner ∧ KStr (str c) ∉ tracked) →
   ∃ st', on_guild_remove E a_guild st = (Raise KeyError, st') ∧
     message_collection st' = message_collection st ∧
     yaml_file st' = yaml_file st).
Proof.
  intros E st tracked inner.
  apply (X17_guild_remove_in_whitelist_mode E a_guild st tracked inner).
  - reflexivity.
  - reflexivity.
  - vm_compute. apply NoDup_singleton.
  - vm_compute. apply NoDup_singleton.
Defined.

(** ** More on the sweep *)

Lemma preserves_ret {A} (P : State → Prop) (a : A) : preserves P (ret a).
Proof. intros st o st' HP [= <- <-]. done. Qed.

Lemma preserves_raise {A} (P : State → Prop) e :
  preserves P (raise (A:=A) e).
Proof. intros st o st' HP [= <- <-]. done. Qed.

Lemma preserves_get (P : State → Prop) : preserves P get.
Proof. intros st o st' HP [= <- <-]. done. Qed.

Lemma preserves_modify (P : State → Prop) f :
  (∀ st, P st → P (f st)) → preserves P (modify f).
Proof. intros Hf st o st' HP [= <- <-]. auto. Qed.

Lemma preserves_bind {A B} (P : State → Prop) (m : M A) (f : A → M B) :
  preserves P m → (∀ a, preserves P (f a)) → preserves P (bind m f).
Proof.
  intros Hm Hf st o st' HP. unfold bind.
  destruct (m st) as [[a|e] st1] eqn:Hrun.
  - intros Hk. eapply Hf; [|exact Hk]. eapply Hm; eauto.
  - intros [= <- <-]. eapply Hm; eauto.
Qed.

Lemma preserves_for_each {A} (P : State → Prop) (body : A → M unit) l :
  (∀ x, x ∈ l → preserves P (body x)) → preserves P (for_each l body).
Proof.
  induction l as [|x l IH]; intros Hbody; simpl.
  - apply preserves_ret.
  - apply preserves_bind; [apply Hbody; left|]. intros _. apply IH.
    intros y Hy. apply Hbody. by right.
Qed.

Lemma preserves_now (P : State → Prop) E :
  (∀ st n, P st → P (set_ticks n st)) → preserves P (now E).
Proof. intros Hf st o st' HP [= <- <-]. auto. Qed.

Lemma preserves_save_yaml (P : State → Prop) E :
  (∀ st d, P st → P (set_yaml_file d st)) → preserves P (save_yaml E).
Proof.
  intros Hf. apply preserves_modify. intros st HP.
  destruct (yaml_writable E); auto.
Qed.

Lemma sweep_kept_refl st : sweep_kept st st.
Proof. repeat split; auto. Qed.

Lemma update_status_sweep_kept st0 k f :
  preserves (sweep_kept st0) (update_status k f).
Proof.
  intros st o st' (Hs & Ht & Hd & Hb).
  unfold update_status, bind, get, modify, raise.
  destruct (last_validated (yaml_data st) !! k) as [status|] eqn:Hk;
    intros [= <- <-]; [|done].
  split; [done|]. split; [done|]. split; [|done].
  cbn [yaml_data set_last_validated set_yaml_data last_validated].
  rewrite dom_insert_lookup_L by (by eexists). done.
Qed.

Lemma call_without_await_sweep_kept st0 E cid ms :
  preserves (sweep_kept st0) (call_without_await E cid ms).
Proof.
  unfold call_without_await. destruct (get_channel E cid).
  - by apply preserves_modify.
  - apply preserves_raise.
Qed.

Lemma clear_buffer_sweep_kept st0 gid cid :
  preserves (sweep_kept st0)
    (modify (λ st, set_message_collection
                     (mc_store gid cid [] (message_collection st)) st)).
Proof.
  apply preserves_modify. intros st (Hs & Ht & Hd & Hb).
  split; [done|]. split; [done|]. split; [done|].
  intros g c. cbn [message_collection set_message_collection].
  destruct (decide ((g, c) = (gid, cid))) as [[= -> ->]|Hne].
  - right. apply mc_buffer_store.
  - rewrite mc_buffer_store_ne by done. apply Hb.
Qed.

Lemma sweep_channel_sweep_kept st0 E idle act ta ti gid cid :
  preserves (sweep_kept st0) (sweep_channel E idle act ta ti gid cid).
Proof.
  unfold sweep_channel.
  apply preserves_bind; [|intros _; apply update_status_sweep_kept].
  repeat case_bool_decide.
  - apply preserves_bind; [apply preserves_get|]. intros st.
    destruct (fifth_from_end _); [|apply preserves_ret].
    destruct (_ >? _); [apply update_status_sweep_kept|apply preserves_ret].
  - apply preserves_bind; [apply preserves_get|]. intros st.
    destruct (fifth_from_end _); [|apply preserves_ret].
    destruct (_ <? _); [|apply preserves_ret].
    apply preserves_bind; [apply update_status_sweep_kept|]. intros _.
    apply preserves_bind; [apply call_without_await_sweep_kept|]. intros _.
    apply clear_buffer_sweep_kept.
  - apply preserves_ret.
Qed.

Lemma check_conversations_sweep_kept st0 E :
  preserves (sweep_kept st0) (check_conversations E).
Proof.
  unfold check_conversations.
  apply preserves_bind; [apply preserves_get|]. intros st.
  apply preserves_bind; [by apply preserves_now|]. intros t1.
  apply preserves_bind; [by apply preserves_now|]. intros t2.
  apply preserves_bind; [|intros _; by apply preserves_save_yaml].
  apply preserves_for_each. intros gid _.
  apply preserves_bind; [apply preserves_get|]. intros st1.
  apply preserves_for_each. intros cid _.
  apply sweep_channel_sweep_kept.
Qed.

(** X18: whether it completes or raises, a sweep never writes a summary
    (the coroutine it builds is never awaited), never changes the tracked
    set, never adds or removes a checkpoint, and leaves every Buffer
    either as it was or empty. *)
Theorem X18_sweep_never_summarizes (E : Env) (st : State) :
  let st' := (check_conversations E st).2 in
  summaries st' = summaries st ∧
  tracked_channels (yaml_data st') = tracked_channels (yaml_data st) ∧
  dom (last_validated (yaml_data st')) = dom (last_validated (yaml_data st)) ∧
  ∀ g c, mc_buffer g c (message_collection st') =
           mc_buffer g c (message_collection st) ∨
         mc_buffer g c (message_collection st') = [].
Proof.
  intros st'. subst st'.
  destruct (check_conversations E st) as [o st1] eqn:Hrun.
  apply (check_conversations_sweep_kept st E st o st1 (sweep_kept_refl st) Hrun).
Qed.

Lemma check_conversations_needs_checkpoint (E : Env) (st st' : State)
    (gid : key) (cid : Z) :
  check_conversations E st = (Ok tt, st') →
  gid ∈ od_keys (message_collection st) →
  cid ∈ od_keys (mc_inner gid (message_collection st)) →
  is_Some (last_validated (yaml_data st) !! str cid).
Proof.
  intros Hrun Hg Hc.
  destruct (check_conversations_checked_at _ _ _ _ _ Hrun Hg Hc)
    as (s & Hs & _).
  pose proof (check_conversations_sweep_kept st E st _ _
                (sweep_kept_refl st) Hrun) as (_ & _ & Hdom & _).
  apply elem_of_dom. rewrite <- Hdom. apply elem_of_dom. by eexists.
Qed.

(** X19: a sweep completes only if every channel that has a Buffer also
    has a checkpoint; otherwise it raises before [save_yaml]. *)
Theorem X19_sweep_needs_every_checkpoint (E : Env) (st st' : State)
    (gid : key) (cid : Z) :
  check_conversations E st = (Ok tt, st') →
  gid ∈ od_keys (message_collection st) →
  cid ∈ od_keys (mc_inner gid (message_collection st)) →
  is_Some (last_validated (yaml_data st) !! str cid).
Proof. apply check_conversations_needs_checkpoint. Qed.

Lemma X19_sweep_needs_every_checkpoint_witness :
  let E := env_at 74 [] in
  let st :=
    (on_message E (live 7 (msg_at 1 50))
       (cog_init {| last_validated :=
                      {[ str 7 := {| checked_at := 0; active := false |} ]};
                    tracked_channels := None |} false)).2 in
  is_Some (last_validated (yaml_data st) !! str 7).
Proof.
  intros E st.
  apply (X19_sweep_needs_every_checkpoint E st (check_conversations E st).2
           (KInt 10) 7).
  - vm_compute. reflexivity.
  - vm_compute. left.
  - vm_compute. left.
Defined.

(** X20: the two quiet outcomes of the sweep for one channel that has a
    checkpoint.  With fewer than five buffered messages only [checked_at]
    is written: the flag and the Buffer stay.  For a channel that was idle
    when the sweep began and whose fifth-from-end message is newer than
    [time_to_active], the flag becomes true and [checked_at] is written,
    but the Buffer is neither collapsed nor emitted and no coroutine is
    built. *)
Theorem X20_sweep_quiet_outcomes
    (E : Env) (idle act : gset string) (ta ti : datetime)
    (gid : key) (cid : Z) (st : State) (status : ChannelStatus) :
  last_validated (yaml_data st) !! str cid = Some status →
  let messages := sorted (mc_buffer gid cid (message_collection st)) in
  (fifth_from_end messages = None →
   ∃ st', sweep_channel E idle act ta ti gid cid st = (Ok tt, st') ∧
     last_validated (yaml_data st') !! str cid =
       Some {| checked_at := ta; active := active status |} ∧
     message_collection st' = message_collection st ∧
     never_awaited st' = never_awaited st) ∧
  (∀ fifth, str cid ∈ idle → fifth_from_end messages = Some fifth →
     ta < timestamp fifth →
   ∃ st', sweep_channel E idle act ta ti gid cid st = (Ok tt, st') ∧
     last_validated (yaml_data st') !! str cid =
       Some {| checked_at := ta; active := true |} ∧
     message_collection st' = message_collection st ∧
     never_awaited st' = never_awaited st).
Proof.
  intros Hstatus messages. split.
  - intros Hnone. unfold sweep_channel.
    assert (Hfirst :
      (if bool_decide (str cid ∈ idle)
       then st0 <- get ;;
            match fifth_from_end
                    (sorted (mc_buffer gid cid (message_collection st0)))
            with
            | Some fifth =>
              if timestamp fifth >? ta
              then update_status (str cid) (set_active true)
              else ret tt
            | None => ret tt
            end
       else if bool_decide (str cid ∈ act)
       then st0 <- get ;;
            match fifth_from_end
                    (sorted (mc_buffer gid cid (message_collection st0)))
            with
            | Some fifth =>
              if timestamp fifth <? ti
              then update_status (str cid) (set_active false) ;;;
                   call_without_await E cid
                     (sorted (mc_buffer gid cid (message_collection st0))) ;;;
                   modify (λ st1, set_message_collection
                                    (mc_store gid cid []
                                       (message_collection st1)) st1)
              else ret tt
            | None => ret tt
            end
       else ret tt) st = (Ok tt, st)).
    { repeat case_bool_decide; unfold bind, get; fold messages;
        by rewrite ?Hnone. }
    unfold bind at 1. rewrite Hfirst.
    unfold update_status, bind, get, modify. rewrite Hstatus.
    eexists. split; [reflexivity|].
    cbn [yaml_data last_validated set_last_validated set_yaml_data
         message_collection never_awaited].
    by rewrite lookup_insert_eq.
  - intros fifth Hidle Hfifth Hnew. unfold sweep_channel.
    rewrite (bool_decide_eq_true_2 _ Hidle).
    unfold bind at 1. unfold bind at 1, get. fold messages. rewrite Hfifth.
    rewrite (proj2 (Z.gtb_lt _ _) Hnew).
    unfold update_status, bind, get, modify. rewrite Hstatus.
    cbn [yaml_data last_validated set_last_validated set_yaml_data].
    rewrite lookup_insert_eq.
    eexists. split; [reflexivity|].
    cbn [yaml_data last_validated set_last_validated set_yaml_data
         message_collection never_awaited].
    by rewrite lookup_insert_eq.
Qed.

Lemma X20_sweep_quiet_outcomes_witness :
  let E := env_at 5 [] in
  let st :=
    (for_each (spaced 5 1) (λ m, on_message E (live 7 m))
       (cog_init {| last_validated :=
                      {[ str 7 := {| checked_at := 0; active := false |} ]};
                    tracked_channels := None |} false)).2 in
  let idle : gset string := {[ str 7 ]} in
  let ta := minutes (-10) in
  let messages := sorted (mc_buffer (KInt 10) 7 (message_collection st)) in
  (fifth_from_end messages = None →
   ∃ st', sweep_channel E idle ∅ ta 0 (KInt 10) 7 st = (Ok tt, st') ∧
     last_validated (yaml_data st') !! str 7 =
       Some {| checked_at := ta; active := false |} ∧
     message_collection st' = message_collection st ∧
     never_awaited st' = never_awaited st) ∧
  (∀ fifth, str 7 ∈ idle → fifth_from_end messages = Some fifth →
     ta < timestamp fifth →
   ∃ st', sweep_channel E idle ∅ ta 0 (KInt 10) 7 st = (Ok tt, st') ∧
     last_validated (yaml_data st') !! str 7 =
       Some {| checked_at := ta; active := true |} ∧
     message_collection st' = message_collection st ∧
     never_awaited st' = never_awaited st).
Proof.
  intros E st idle ta.
  apply (X20_sweep_quiet_outcomes E idle ∅ ta 0 (KInt 10) 7 st
           {| checked_at := 0; active := false |}).
  reflexivity.
Defined.

(** ** The [track] command and the mode of the cog *)

(** Words are cut at white space of any kind, ASCII or not, and at
    nothing else. *)
Lemma str_split_examples :
  str_split "!track ON" = ["!track"; "ON"] ∧
  str_split ("!track" +:+ no_break_space +:+ "on") = ["!track"; "on"] ∧
  str_split (" !track" +:+ ideographic_space +:+ " on "
               +:+ em_space) = ["!track"; "on"] ∧
  str_split ("!track" +:+ a_grave +:+ "on") =
    ["!track" +:+ a_grave +:+ "on"] ∧
  str_split ("!track" +:+ zero_width_space +:+ "on") =
    ["!track" +:+ zero_width_space +:+ "on"] ∧
  str_split (em_space +:+ " ") = [].
Proof. vm_compute. repeat split; reflexivity. Qed.

Lemma track_request_state E channel (track : bool) s1 s2 st :
  s1 ≠ EmptyString → s2 ≠ EmptyString →
  ∀ (s3 : string), s3 ≠ EmptyString →
  ∃ reply,
    try_except
      (changed <- track_channel E channel track ;;
       ret (if changed : bool then s1 else s2))
      (λ _, ret s3) st
    = (Ok reply, (track_channel E channel track st).2) ∧
    reply ≠ EmptyString.
Proof.
  intros H1 H2 s3 H3. unfold try_except, bind, ret.
  destruct (track_channel E channel track st) as [[[]|e] st1]; cbn [snd];
    by eexists.
Qed.

Lemma track_cases
    (E : Env) (command_prefix : string) (channel : Channel)
    (content : string) (st : State) :
  let '(o, st') := track E command_prefix channel content st in
  (∃ reply, o = Ok reply ∧ reply ≠ EmptyString) ∧
  (st' = st ∨
   ∃ word action,
     str_split content = [word; action] ∧
     ((lower action ∈ ["on"; "true"; "1"] ∧
       st' = (track_channel E channel true st).2) ∨
      (lower action ∈ ["off"; "false"; "0"] ∧
       st' = (track_channel E channel false st).2))).
Proof.
  unfold track. unfold bind at 1, get.
  destruct (tracked_channels (yaml_data st)) as [tracked|];
    [|split; [by eexists|by left]].
  unfold bind, ret.
  case_bool_decide as Hone.
  { case_bool_decide; (split; [by eexists|by left]). }
  case_bool_decide as Htwo; [|split; [by eexists|by left]].
  destruct (str_split content) as [|word [|action [|]]] eqn:Hsplit;
    try done. clear Hone Htwo. cbn [lookup list_lookup default].
  case_bool_decide as Hon.
  { destruct (track_request_state E channel true
                "✅ This channel is now being tracked."
                "This channel is already being tracked." st
                ltac:(done) ltac:(done)
                "⚠️ An error occurred while trying to track this channel."
                ltac:(done)) as (reply & Hrun & Hreply).
    unfold bind, ret in Hrun. rewrite Hrun.
    rewrite bool_decide_eq_false_2 by done.
    split; [by eexists|]. right. exists word, action. split; [done|].
    by left. }
  case_bool_decide as Hoff; [|split; [by eexists|by left]].
  destruct (track_request_state E channel false
              "❌ This channel is no longer being tracked."
              "This channel is already not being tracked." st
              ltac:(done) ltac:(done)
              "⚠️ An error occurred while trying to untrack this channel."
              ltac:(done)) as (reply & Hrun & Hreply).
  unfold bind, ret in Hrun. rewrite Hrun.
  rewrite bool_decide_eq_false_2 by done.
  split; [by eexists|]. right. exists word, action. split; [done|].
  by right.
Qed.


Lemma track_on_state E command_prefix channel content st tracked word action :
  tracked_channels (yaml_data st) = Some tracked →
  str_split content = [word; action] →
  lower action ∈ ["on"; "true"; "1"] →
  (track E command_prefix channel content st).2 =
    (track_channel E channel true st).2 ∧
  ((track E command_prefix channel content st).1 =
     Ok "✅ This channel is now being tracked." ∨
   (track E command_prefix channel content st).1 =
     Ok "This channel is already being tracked." ∨
   (track E command_prefix channel content st).1 =
     Ok "⚠️ An error occurred while trying to track this channel.").
Proof.
  intros Htracked Hsplit Hon.
  remember (track E command_prefix channel content st) as r eqn:Hr.
  unfold track in Hr. unfold bind at 1, get in Hr.
  rewrite Htracked, Hsplit in Hr. cbn [length lookup list_lookup default] in Hr.
  rewrite (bool_decide_eq_false_2 (2 = 1)%nat) in Hr by done.
  rewrite (bool_decide_eq_true_2 (2 = 2)%nat) in Hr by done.
  rewrite (bool_decide_eq_true_2 _ Hon) in Hr.
  unfold try_except, bind, ret in Hr.
  destruct (track_channel E channel true st) as [[[]|e] st1]; cbn [fst snd];
    rewrite bool_decide_eq_false_2 in Hr by done; subst r; cbn [fst snd];
    (split; [done|]); auto.
Qed.

(** X22: what the administrator sees after enabling a channel that was
    not admitted: [track on] answers, and the status query that follows
    still answers that the channel is not being tracked, because the query
    looks for the integer id and [track on] stored the string. *)
Theorem X22_status_after_track_on
    (E : Env) (command_prefix : string) (channel : Channel) (st : State)
    (tracked : gset key) (content query word action : string) :
  tracked_channels (yaml_data st) = Some tracked →
  KInt (channel_id channel) ∉ tracked →
  str_split content = [word; action] →
  lower action ∈ ["on"; "true"; "1"] →
  length (str_split query) = 1%nat →
  let st1 := (track E command_prefix channel content st).2 in
  track E command_prefix channel query st1 =
    (Ok "❌ This channel is not being tracked.", st1).
Proof.
  intros Htracked Hnotin Hsplit Hon Hquery st1.
  assert (Hset : tracked_channels (yaml_data st1) =
                   Some (tracked ∪ {[KStr (str (channel_id channel))]})).
  { subst st1.
    destruct (track_on_state E command_prefix channel content st tracked
                word action Htracked Hsplit Hon) as [-> _].
    destruct (track_channel_enable_state E channel st tracked Htracked Hnotin)
      as (o & st2 & Hfetch & -> & _).
    rewrite (fetch_tracked_channels _ _ _ _ _ _ Hfetch).
    apply enabled_tracked_channels. }
  unfold track. unfold bind at 1, get. rewrite Hset.
  rewrite (bool_decide_eq_true_2 _ Hquery).
  rewrite bool_decide_eq_false_2.
  - unfold bind, ret. by rewrite bool_decide_eq_false_2.
  - rewrite not_elem_of_union, not_elem_of_singleton. done.
Qed.

(** The same with the two words of the request separated by a no-break
    space: the request is carried out, the string is stored, and the query
    still answers that the channel is not tracked. *)
Lemma track_on_no_break_space :
  let E := env_at 10 (spaced 5 1) in
  let st := cog_init {| last_validated := ∅; tracked_channels := Some ∅ |}
              true in
  let r := track E "!" chan7 ("!track" +:+ no_break_space +:+ "on") st in
  r.1 = Ok "✅ This channel is now being tracked." ∧
  tracked_channels (yaml_data r.2) = Some {[KStr "7"]} ∧
  (track E "!" chan7 "!track" r.2).1 =
    Ok "❌ This channel is not being tracked.".
Proof. vm_compute. repeat split; reflexivity. Qed.

Lemma X22_status_after_track_on_witness :
  let E := env_at 10 (spaced 5 1) in
  let st := cog_init {| last_validated := ∅; tracked_channels := Some ∅ |}
              true in
  let st1 := (track E "!" chan7 "!track ON" st).2 in
  track E "!" chan7 "!track" st1 =
    (Ok "❌ This channel is not being tracked.", st1).
Proof.
  intros E st.
  apply (X22_status_after_track_on E "!" chan7 st ∅ "!track ON" "!track"
           "!track" "ON").
  - reflexivity.
  - apply not_elem_of_empty.
  - vm_compute. reflexivity.
  - vm_compute. left.
  - vm_compute. reflexivity.
Defined.

Lemma same_mode_refl st : same_mode st st.
Proof. unfold same_mode. done. Qed.

Lemma same_mode_tracked st0 st st' :
  tracked_channels (yaml_data st') = tracked_channels (yaml_data st) →
  same_mode st0 st → same_mode st0 st'.
Proof. unfold same_mode. by intros ->. Qed.

Lemma fetch_same_mode st0 E guild channel :
  preserves (same_mode st0) (_fetch_message_history E guild channel).
Proof.
  intros st o st' Hmode Hrun. eapply same_mode_tracked; [|exact Hmode].
  by eapply fetch_tracked_channels.
Qed.

Lemma track_channel_same_mode E channel track st :
  same_mode st (track_channel E channel track st).2.
Proof.
  destruct (tracked_channels (yaml_data st)) as [tracked|] eqn:Htracked;
    cycle 1.
  { unfold track_channel, bind, get. rewrite Htracked. apply same_mode_refl. }
  assert (Hsome : ∀ st', is_Some (tracked_channels (yaml_data st')) →
                         same_mode st st').
  { intros st' [t Ht]. unfold same_mode. rewrite Ht, Htracked. done. }
  destruct track.
  - destruct (decide (KInt (channel_id channel) ∈ tracked)) as [Hin|Hnotin].
    { unfold track_channel, bind, get. rewrite Htracked.
      rewrite (bool_decide_eq_true_2 _ Hin). cbn. apply same_mode_refl. }
    apply Hsome.
    destruct (track_channel_enable_state E channel st tracked Htracked Hnotin)
      as (o & st1 & Hfetch & -> & _).
    rewrite (fetch_tracked_channels _ _ _ _ _ _ Hfetch).
    rewrite enabled_tracked_channels. by eexists.
  - unfold track_channel, bind, get. rewrite Htracked.
    case_bool_decide; [apply same_mode_refl|].
    unfold modify, save_yaml, ret, raise. cbn.
    apply Hsome.
    destruct (od_del _ _); cbn; [destruct (yaml_writable E)|]; by eexists.
Qed.

Lemma tracked_remove_same_mode st0 k :
  preserves (same_mode st0) (tracked_remove k).
Proof.
  intros st o st' Hmode. unfold tracked_remove, bind, get, modify, raise.
  destruct (tracked_channels (yaml_data st)) as [tracked|] eqn:Htracked;
    [|by intros [= <- <-]].
  case_bool_decide; intros [= <- <-]; [|done].
  unfold same_mode in *. cbn. rewrite Htracked in Hmode.
  split; [done|]. intros H0. by apply Hmode in H0.
Qed.

Lemma keep_yaml_data_same_mode st0 f :
  (∀ st, yaml_data (f st) = yaml_data st) →
  preserves (same_mode st0) (modify f).
Proof.
  intros Hf. apply preserves_modify. intros st.
  apply same_mode_tracked. by rewrite Hf.
Qed.

(** X23: the mode of the cog, open (no tracked set) or whitelist, is fixed
    when the cog is built: no handler turns a missing tracked set into a
    set or a set into a missing one, whether it returns or raises. *)
Theorem X23_mode_never_changes
    (E : Env) (st : State) (guild : Guild) (channel : Channel)
    (text_channels : list Channel) (track_flag : bool)
    (command_prefix content : string) (message : Message) :
  same_mode st (_fetch_message_history E guild channel st).2 ∧
  same_mode st (track_channel E channel track_flag st).2 ∧
  same_mode st (track E command_prefix channel content st).2 ∧
  same_mode st (on_message E message st).2 ∧
  same_mode st (on_ready E st).2 ∧
  same_mode st (on_guild_join E guild text_channels st).2 ∧
  same_mode st (on_guild_remove E guild st).2 ∧
  same_mode st (check_conversations E st).2.
Proof.
  assert (Hrun : ∀ (m : M unit), preserves (same_mode st) m →
                                 same_mode st (m st).2).
  { intros m Hm. destruct (m st) as [o st'] eqn:Hst.
    eapply Hm; [apply same_mode_refl|exact Hst]. }
  assert (Hloop : ∀ g channels,
    preserves (same_mode st)
      (for_each channels (λ channel,
         st0 <- get ;;
         if not_tracked (yaml_data st0) (channel_id channel) then ret tt
         else _fetch_message_history E g channel))).
  { intros g channels. apply preserves_for_each. intros c _.
    apply preserves_bind; [apply preserves_get|]. intros st0.
    destruct (not_tracked _ _); [apply preserves_ret|apply fetch_same_mode]. }
  split; [apply Hrun, fetch_same_mode|].
  split; [apply track_channel_same_mode|].
  split.
  { pose proof (track_cases E command_prefix channel content st) as Hcases.
    destruct (track E command_prefix channel content st) as [o st'].
    destruct Hcases as [_ [->|(w & a & _ & [[_ ->]|[_ ->]])]];
      [apply same_mode_refl|apply track_channel_same_mode..]. }
  split.
  { apply Hrun. unfold on_message. case_bool_decide; [apply preserves_ret|].
    apply preserves_bind; [apply preserves_get|]. intros st0.
    destruct (not_tracked _ _); [apply preserves_ret|].
    by apply keep_yaml_data_same_mode. }
  split.
  { apply Hrun. unfold on_ready. apply preserves_for_each.
    intros [g channels] _. apply Hloop. }
  split; [apply Hrun, Hloop|].
  split.
  { apply Hrun. unfold on_guild_remove.
    apply preserves_bind; [apply preserves_get|]. intros st0.
    destruct (od_get _ _); [|apply preserves_ret].
    apply preserves_bind.
    - destruct (tracked_channels (yaml_data st0)); [|apply preserves_ret].
      apply preserves_bind.
      + apply preserves_for_each. intros c _. apply tracked_remove_same_mode.
      + intros _. apply preserves_save_yaml. intros st1 d.
        by apply same_mode_tracked.
    - intros _. apply preserves_bind; [apply preserves_get|]. intros st1.
      destruct (od_del _ _); [|apply preserves_raise].
      by apply keep_yaml_data_same_mode. }
  destruct (check_conversations E st) as [o st'] eqn:Hsweep.
  pose proof (check_conversations_sweep_kept st E st o st'
                (sweep_kept_refl st) Hsweep) as (_ & Ht & _).
  cbn [snd]. eapply same_mode_tracked; [exact Ht|apply same_mode_refl].
Qed.

(** ** Construction of the cog, and what a checkpoint promises *)

(** X24: whitelist mode cannot start from YAML data without a tracked
    set: the cog built with the whitelist flag is the cog built without
    it, every [track] command is answered with the open-mode notice and
    [track_channel] answers [False], both without changing anything. *)
Theorem X24_whitelist_needs_a_tracked_set (loaded : BotData) :
  tracked_channels loaded = None →
  cog_init loaded true = cog_init loaded false ∧
  (∀ E command_prefix channel content,
     track E command_prefix channel content (cog_init loaded true) =
       (Ok "All channels are being tracked. Contact the bot owner to enable whitelist mode.",
        cog_init loaded true)) ∧
  (∀ E channel flag,
     track_channel E channel flag (cog_init loaded true) =
       (Ok false, cog_init loaded true)).
Proof.
  intros Hnone. split; [|split].
  - unfold cog_init. by rewrite Hnone.
  - intros. unfold track, bind, get, cog_init. cbn. by rewrite Hnone.
  - intros. unfold track_channel, bind, get, cog_init. cbn. by rewrite Hnone.
Qed.

Lemma X24_whitelist_needs_a_tracked_set_witness :
  cog_init empty_data true = cog_init empty_data false ∧
  (∀ E command_prefix channel content,
     track E command_prefix channel content (cog_init empty_data true) =
       (Ok "All channels are being tracked. Contact the bot owner to enable whitelist mode.",
        cog_init empty_data true)) ∧
  (∀ E channel flag,
     track_channel E channel flag (cog_init empty_data true) =
       (Ok false, cog_init empty_data true)).
Proof.
  apply (X24_whitelist_needs_a_tracked_set empty_data). reflexivity.
Defined.

Lemma scan_chunk_sublist l : current_chunk (scan l) `sublist_of` l.
Proof.
  etrans; [|apply scan_sublist]. apply sublist_inserts_l. reflexivity.
Qed.

(** On a list in timestamp order, a recorded candidate is not later than
    any message of the current chunk. *)
Lemma scan_candidate_before_chunk l :
  StronglySorted (λ a b, timestamp a ≤ timestamp b) l →
  ∀ t, validate_stamp (scan l) = Some t →
       ∀ m, m ∈ current_chunk (scan l) → t ≤ timestamp m.
Proof.
  induction l as [|x l IH] using rev_ind; [done|].
  intros Hsorted. rewrite scan_snoc.
  pose proof (StronglySorted_app_1_l _ _ _ Hsorted) as Hl.
  assert (Hx : ∀ y, y ∈ l → timestamp y ≤ timestamp x).
  { intros y Hy.
    eapply (StronglySorted_app_1_elem_of _ _ _ _ _ Hsorted); [done|left]. }
  destruct (scan_step_cases (scan l) x)
    as [->|[(f&r&_&Hl5&_&_&->)|(f&r&_&_&_&_&->)]]; simpl.
  - intros t Ht m [Hm|Hm%list_elem_of_singleton]%elem_of_app.
    + by eapply IH.
    + subst m. destruct (scan_candidate_of_input _ _ Ht) as (m0 & Hm0 & <-).
      by apply Hx.
  - intros t [= <-] m Hm.
    assert (Hchunk : StronglySorted (λ a b, timestamp a ≤ timestamp b)
                       (last5 (current_chunk (scan l) ++ [x]))).
    { eapply StronglySorted_sublist_of; [|exact Hsorted].
      etrans; [apply last5_sublist|].
      apply sublist_app; [apply scan_chunk_sublist|reflexivity]. }
    rewrite Hl5 in Hchunk, Hm.
    apply StronglySorted_inv in Hchunk as [_ Hf].
    apply elem_of_cons in Hm as [->|Hm]; [lia|].
    by eapply Forall_forall in Hf.
  - intros t _ m Hm. by apply elem_of_nil in Hm.
Qed.

(** X25: what a committed checkpoint promises about the Buffer: after an
    evaluation that recorded a candidate, no message of the channel's
    Buffer is older than the committed [checked_at]. *)
Theorem X25_buffer_not_older_than_checkpoint
    (E : Env) (guild : Guild) (channel : Channel) (st : State)
    (stamp : datetime) :
  (5 ≤ length (fetched E channel st))%nat →
  validate_stamp (scan (sorted (fetched E channel st))) = Some stamp →
  let st' := (_fetch_message_history E guild channel st).2 in
  (checked_at <$> last_validated (yaml_data st') !! str (channel_id channel))
    = Some stamp ∧
  ∀ m, m ∈ buffer_of guild channel st' → stamp ≤ timestamp m.
Proof.
  intros Hlen Hstamp st'.
  destruct (_fetch_message_history E guild channel st) as [o st1] eqn:Hrun.
  subst st'. cbn [snd]. split.
  - by rewrite (fetch_commit _ _ _ _ _ _ _ Hrun Hlen Hstamp).
  - intros m. rewrite (fetch_buffer _ _ _ _ _ _ Hrun).
    destruct (Nat.leb_spec 5 (length (fetched E channel st))); [|lia].
    apply scan_candidate_before_chunk; [apply sorted_timestamps|done].
Qed.

Lemma X25_buffer_not_older_than_checkpoint_witness :
  let E := env_at 100 (spaced 5 20) in
  let st := cog_init empty_data false in
  let st' := (_fetch_message_history E a_guild chan7 st).2 in
  (checked_at <$> last_validated (yaml_data st') !! str (channel_id chan7))
    = Some 0 ∧
  ∀ m, m ∈ buffer_of a_guild chan7 st' → 0 ≤ timestamp m.
Proof.
  apply (X25_buffer_not_older_than_checkpoint (env_at 100 (spaced 5 20))
           a_guild chan7 (cog_init empty_data false) 0).
  - vm_compute. lia.
  - vm_compute. reflexivity.
Defined.

(** ** An evaluation followed by a sweep *)

Lemma od_keys_set_elem {K V} `{EqDecision K} (k : K) (v : V) d :
  k ∈ od_keys (od_set k v d).
Proof.
  induction d as [|[k' v'] d IH]; simpl; [left|].
  case_decide; simpl; [left|by right].
Qed.

Lemma mc_store_creates g c buf mc :
  g ∈ od_keys (mc_store g c buf mc) ∧
  c ∈ od_keys (mc_inner g (mc_store g c buf mc)).
Proof.
  unfold mc_store. split; [apply od_keys_set_elem|].
  rewrite mc_inner_set_eq. apply od_keys_set_elem.
Qed.

(** X26: an evaluation that finds fewer than five messages for a channel
    without a checkpoint sets the next sweep up to fail: it creates the
    channel's Buffer and no checkpoint, and the sweep that follows does
    not complete, whatever else the state holds. *)
Theorem X26_short_batch_then_sweep_fails
    (E : Env) (guild : Guild) (channel : Channel) (st : State) :
  last_validated (yaml_data st) !! str (channel_id channel) = None →
  (length (fetched E channel st) < 5)%nat →
  let '(o, st1) := _fetch_message_history E guild channel st in
  o = Ok tt ∧
  last_validated (yaml_data st1) !! str (channel_id channel) = None ∧
  buffer_of guild channel st1 =
    buffer_of guild channel st ++ fetched E channel st ∧
  ∀ st2, check_conversations E st1 ≠ (Ok tt, st2).
Proof.
  intros Hnone Hshort.
  assert (Hrun : _fetch_message_history E guild channel st =
                   (Ok tt, windowed E guild channel st)).
  { rewrite fetch_decompose.
    by destruct (Nat.leb_spec 5 (length (fetched E channel st))); [lia|]. }
  rewrite Hrun.
  assert (Hlv : last_validated (yaml_data (windowed E guild channel st))
                  !! str (channel_id channel) = None).
  { rewrite windowed_last_validated.
    by destruct (Nat.leb_spec 5 (length (fetched E channel st))); [lia|]. }
  split; [done|]. split; [done|]. split.
  { rewrite windowed_buffer.
    by destruct (Nat.leb_spec 5 (length (fetched E channel st))); [lia|]. }
  intros st2 Hsweep.
  assert (Hkeys :
    KInt (guild_id guild) ∈
      od_keys (message_collection (windowed E guild channel st)) ∧
    channel_id channel ∈
      od_keys (mc_inner (KInt (guild_id guild))
                 (message_collection (windowed E guild channel st)))).
  { unfold windowed.
    destruct (Nat.leb_spec 5 (length (fetched E channel st))); [lia|].
    cbn [message_collection set_message_collection].
    apply mc_store_creates. }
  destruct Hkeys as [Hg Hc].
  destruct (check_conversations_needs_checkpoint _ _ _ _ _ Hsweep Hg Hc)
    as [s Hs].
  congruence.
Qed.

Lemma X26_short_batch_then_sweep_fails_witness :
  let E := env_at 10 (spaced 4 1) in
  let st := cog_init empty_data false in
  let '(o, st1) := _fetch_message_history E a_guild chan7 st in
  o = Ok tt ∧
  last_validated (yaml_data st1) !! str (channel_id chan7) = None ∧
  buffer_of a_guild chan7 st1 =
    buffer_of a_guild chan7 st ++ fetched E chan7 st ∧
  ∀ st2, check_conversations E st1 ≠ (Ok tt, st2).
Proof.
  apply (X26_short_batch_then_sweep_fails (env_at 10 (spaced 4 1))
           a_guild chan7 (cog_init empty_data false)).
  - reflexivity.
  - vm_compute. lia.
Defined.
